(** * Kristory launcher: the client-side reconciliation layer

    A shallow embedding of the front-end logic of the launcher
    ([src/app/page.tsx], the [Home] component, and the settings dialog
    component [SettingsDialog]) together with the properties its
    design document states about it.

    JavaScript strings are sequences of UTF-16 code units; asynchronous
    handlers are modelled as functions from the backend's answers to the
    effects they perform (in the order performed) and the React state they
    leave behind. *)

From Stdlib Require Import String Ascii.
From stdpp Require Import base numbers list option.

(** ** JavaScript strings *)

Module Js.

#[local] Open Scope N_scope.

(** A JavaScript string: its UTF-16 code units. *)
Definition jsstring := list N.

(** String literals are written in the sources as UTF-8 text; [lit] gives the
    code units JavaScript holds for such a literal (a code point above
    U+FFFF becomes a surrogate pair, a malformed byte U+FFFD). *)
Definition continuation (a : ascii) : N := N_of_ascii a - 128.

Definition code_point (cp : N) : jsstring :=
  if cp <? 65536 then [cp]
  else [55296 + (cp - 65536) / 1024; 56320 + (cp - 65536) mod 1024].

Fixpoint lit (s : string) : jsstring :=
  match s with
  | EmptyString => []
  | String a r =>
    let b := N_of_ascii a in
    if b <? 128 then b :: lit r
    else if b <? 192 then 65533 :: lit r
    else if b <? 224 then
      match r with
      | String a1 r1 => ((b - 192) * 64 + continuation a1) :: lit r1
      | _ => [65533]
      end
    else if b <? 240 then
      match r with
      | String a1 (String a2 r2) =>
        ((b - 224) * 4096 + continuation a1 * 64 + continuation a2) :: lit r2
      | _ => [65533]
      end
    else
      match r with
      | String a1 (String a2 (String a3 r3)) =>
        code_point ((b - 240) * 262144 + continuation a1 * 4096
                    + continuation a2 * 64 + continuation a3) ++ lit r3
      | _ => [65533]
      end
  end.

(** [a === b] on strings. *)
Definition str_eqb (a b : jsstring) : bool := bool_decide (a = b).

(** [s.startsWith(p)]. *)
Fixpoint startsWith (s p : jsstring) {struct p} : bool :=
  match p with
  | [] => true
  | c :: p' =>
    match s with
    | [] => false
    | d :: s' => (d =? c) && startsWith s' p'
    end
  end.

(** [s.includes(p)]: [p] occurs at some position of [s]. *)
Fixpoint includes (s p : jsstring) {struct s} : bool :=
  startsWith s p ||
  match s with
  | [] => false
  | _ :: s' => includes s' p
  end.

(** [s.endsWith(p)]. *)
Definition endsWith (s p : jsstring) : bool := startsWith (rev s) (rev p).

(** [s.replace(pat, rep)] with a string pattern: the first occurrence only. *)
Fixpoint replace (s pat rep : jsstring) {struct s} : jsstring :=
  if startsWith s pat then rep ++ drop (length pat) s
  else match s with
       | [] => []
       | c :: s' => c :: replace s' pat rep
       end.

(** [s.toLowerCase()], code unit by code unit, on the Latin and Cyrillic
    letters the launcher's status texts are written in (A-Z, U+0400-U+042F);
    other code units are left as they are.  The Unicode tables map no code
    unit other than [J], [A], [V] to [j], [a], [v], so for the one use the
    sources make of it, [s.toLowerCase().includes("java")], nothing is lost
    by the shorter table. *)
Definition lowerUnit (c : N) : N :=
  if (65 <=? c) && (c <=? 90) then c + 32
  else if (1024 <=? c) && (c <=? 1039) then c + 80
  else if (1040 <=? c) && (c <=? 1071) then c + 32
  else c.

Definition toLowerCase (s : jsstring) : jsstring := map lowerUnit s.

(** Case folding of a regular expression with the [i] flag and without the
    [u] flag (ECMAScript's Canonicalize: the upper case of the code unit,
    except that a unit from 128 up is never folded onto one below 128).
    The patterns of the sources are ASCII, and a comparison with an ASCII
    character is decided by the ASCII part of the folding alone. *)
Definition canonicalize (c : N) : N :=
  if (97 <=? c) && (c <=? 122) then c - 32 else c.

(** The pattern [p] matched, ignoring case, at the start of [s]: what
    follows the match. *)
Fixpoint matchIgnoreCase (s p : jsstring) {struct p} : option jsstring :=
  match p with
  | [] => Some s
  | c :: p' =>
    match s with
    | [] => None
    | d :: s' =>
      if canonicalize d =? canonicalize c then matchIgnoreCase s' p' else None
    end
  end.

(** [/p/i.test(s)] for a pattern [p] of literal characters. *)
Fixpoint testIgnoreCase (s p : jsstring) {struct s} : bool :=
  bool_decide (is_Some (matchIgnoreCase s p)) ||
  match s with
  | [] => false
  | _ :: s' => testIgnoreCase s' p
  end.

(** The character class [[\\/]]. *)
Definition isSeparator (c : N) : bool := (c =? 92) || (c =? 47).

(** [s.replace(/[\\/]+$/, '')]: the match is the whole run of separators
    the string ends with (the leftmost position from which only separators
    follow), and it is removed. *)
Fixpoint allSeparators (s : jsstring) : bool :=
  match s with
  | [] => true
  | c :: s' => isSeparator c && allSeparators s'
  end.

Fixpoint stripTrailingSeparators (s : jsstring) : jsstring :=
  match s with
  | [] => []
  | c :: s' => if allSeparators s then [] else c :: stripTrailingSeparators s'
  end.

End Js.


(** ** Answers of the backend *)

Module Net.

(** What [await fetch(url)] followed by [await res.json()] can give: the
    request is rejected (a network error), or it is answered with a status
    ([res.ok]) and a body; [body = None] is a body that [res.json()]
    rejects. *)
Inductive Response (A : Type) : Type :=
| Rejected
| Answered (ok : bool) (body : option A).

Arguments Rejected {A}.
Arguments Answered {A} ok body.

End Net.

Import Js Net.

(** ** The main page ([Home], page.tsx) *)

Module Home.

#[local] Open Scope N_scope.

Inductive AccountType := ely_by.

Record Account := {
  uuid : jsstring;
  username : jsstring;
  type : AccountType;
  accessToken : jsstring;
  clientToken : jsstring
}.

Record VersionInfo := { minecraft : jsstring; fabric : jsstring }.

Record LauncherStatus := {
  is_processing : bool;
  status_text : jsstring;
  progress : N;
  version_info : VersionInfo;
  is_game_installed : bool
}.

Record ServerStatus := {
  online : bool;
  players_online : option N;
  players_max : option N
}.

Record GameSettings := {
  server_address : jsstring;
  enable_logs : bool;
  game_directory : jsstring
}.

(** [LauncherConfig]; its [accounts] field is [config_accounts] here, the
    name [accounts] being the component's state variable. *)
Record LauncherConfig := {
  config_accounts : list Account;
  last_selected_uuid : option jsstring;
  game_settings : GameSettings
}.

(** The JSON a GET of /api/config can carry, as far as the validation of
    [fetchBackendData] tells it apart: a falsy value, a value whose
    [accounts] is not an array, or a configuration. *)
Inductive ConfigJson :=
| JsonFalsy
| JsonAccountsNotArray
| JsonConfig (config : LauncherConfig).

(** The state variables of [Home] the modelled handlers read or write. *)
Record State := {
  accounts : list Account;
  selectedAccount : option Account;
  launcherStatus : LauncherStatus;
  serverStatus : option ServerStatus;
  launcherConfig : option LauncherConfig;
  isJavaErrorOpen : bool;
  javaErrorMessage : jsstring
}.

Inductive Endpoint := ApiConfig | ApiCheckJava | ApiStatus | ApiServerStatus.

Inductive ConsoleMessage :=
| FailedToCheckJava
| AttemptFailed
| Retrying (delay : N) (retries : nat)
| FailedAfterRetries
| PollStatusError
| PollServerStatusError.

Record ToastMessage := {
  title : jsstring;
  description : jsstring;
  destructive : bool;
  duration : N
}.

(** What a handler does besides setting state, in the order it does it. *)
Inductive Effect :=
| Fetch (endpoint : Endpoint)
| Console (message : ConsoleMessage)
| SetTimeout (delay : N)
| Toast (message : ToastMessage).

Definition initialState : State := {|
  accounts := [];
  selectedAccount := None;
  launcherStatus := {|
    is_processing := false;
    status_text := lit "Подключение...";
    progress := 0;
    version_info := {| minecraft := lit "N/A"; fabric := lit "N/A" |};
    is_game_installed := false |};
  serverStatus := None;
  launcherConfig := None;
  isJavaErrorOpen := false;
  javaErrorMessage :=
    lit "Для запуска Minecraft требуется Java. Пожалуйста, установите рекомендованную версию и попробуйте снова." |}.

(** [handleJavaError]: [setJavaErrorMessage(message); setJavaErrorOpen(true)]. *)
Definition handleJavaError (message : jsstring) (st : State) : State := {|
  accounts := accounts st;
  selectedAccount := selectedAccount st;
  launcherStatus := launcherStatus st;
  serverStatus := serverStatus st;
  launcherConfig := launcherConfig st;
  isJavaErrorOpen := true;
  javaErrorMessage := message |}.

(** [checkJavaVersion], for the backend's answer to GET /api/check-java
    (its body is [errorData.error]). *)
Definition checkJavaVersion (java : Response jsstring) (st : State)
  : list Effect * State :=
  match java with
  | Rejected => ([Fetch ApiCheckJava; Console FailedToCheckJava], st)
  | Answered true _ => ([Fetch ApiCheckJava], st)
  | Answered false None => ([Fetch ApiCheckJava; Console FailedToCheckJava], st)
  | Answered false (Some error) => ([Fetch ApiCheckJava], handleJavaError error st)
  end.

(** The [try] block of [fetchBackendData] up to its validation: the
    configuration it goes on with, or [None] when it throws. *)
Definition receivedConfig (r : Response ConfigJson) : option LauncherConfig :=
  match r with
  | Answered true (Some (JsonConfig config)) => Some config
  | _ => None
  end.

(** [acc.uuid === config.last_selected_uuid]. *)
Definition isLastSelected (config : LauncherConfig) (acc : Account) : bool :=
  match last_selected_uuid config with
  | Some u => str_eqb (uuid acc) u
  | None => false
  end.

(** The account [fetchBackendData] selects:
    [lastSelected || fetchedAccounts[0]], or [null] for no accounts. *)
Definition selectionAfterFetch (config : LauncherConfig) : option Account :=
  match config_accounts config with
  | [] => None
  | first :: _ =>
    Some (default first (find (isLastSelected config) (config_accounts config)))
  end.

(** The state updates of the success path. *)
Definition populate (config : LauncherConfig) (st : State) : State := {|
  accounts := config_accounts config;
  selectedAccount := selectionAfterFetch config;
  launcherStatus := launcherStatus st;
  serverStatus := serverStatus st;
  launcherConfig := Some config;
  isJavaErrorOpen := isJavaErrorOpen st;
  javaErrorMessage := javaErrorMessage st |}.

(** [{ ...prev, status_text: text }]. *)
Definition withStatusText (text : jsstring) (prev : LauncherStatus)
  : LauncherStatus := {|
  is_processing := is_processing prev;
  status_text := text;
  progress := progress prev;
  version_info := version_info prev;
  is_game_installed := is_game_installed prev |}.

(** The state updates of the branch without retries left. *)
Definition giveUp (st : State) : State := {|
  accounts := [];
  selectedAccount := None;
  launcherStatus := withStatusText (lit "Ошибка API") (launcherStatus st);
  serverStatus := serverStatus st;
  launcherConfig := launcherConfig st;
  isJavaErrorOpen := isJavaErrorOpen st;
  javaErrorMessage := javaErrorMessage st |}.

(** [fetchBackendData(retries, delay)].  [backend n] is the answer to the
    [n]-th GET of /api/config of the run (the calls are numbered from 0,
    [attempt] is the number of this one); the call that [setTimeout]
    schedules is the recursive one. *)
Fixpoint fetchBackendData (backend : nat -> Response ConfigJson)
    (java : Response jsstring) (attempt retries : nat) (delay : N) (st : State)
  : list Effect * State :=
  match receivedConfig (backend attempt) with
  | Some config =>
    let '(effects, st') := checkJavaVersion java (populate config st) in
    (Fetch ApiConfig :: effects, st')
  | None =>
    match retries with
    | S retries' =>
      let '(effects, st') :=
        fetchBackendData backend java (S attempt) retries' (delay * 2) st in
      (Fetch ApiConfig :: Console AttemptFailed
         :: Console (Retrying delay retries) :: SetTimeout delay :: effects, st')
    | O =>
      ([Fetch ApiConfig; Console AttemptFailed; Console FailedAfterRetries],
       giveUp st)
    end
  end.

(** The call on mount and from [handleDataChange]: [fetchBackendData()]. *)
Definition fetchBackendData_default (backend : nat -> Response ConfigJson)
    (java : Response jsstring) (st : State) : list Effect * State :=
  fetchBackendData backend java 0 5 500 st.

(** *** Status polling *)

Definition setLauncherStatus (data : LauncherStatus) (st : State) : State := {|
  accounts := accounts st;
  selectedAccount := selectedAccount st;
  launcherStatus := data;
  serverStatus := serverStatus st;
  launcherConfig := launcherConfig st;
  isJavaErrorOpen := isJavaErrorOpen st;
  javaErrorMessage := javaErrorMessage st |}.

Definition setServerStatus (data : ServerStatus) (st : State) : State := {|
  accounts := accounts st;
  selectedAccount := selectedAccount st;
  launcherStatus := launcherStatus st;
  serverStatus := Some data;
  launcherConfig := launcherConfig st;
  isJavaErrorOpen := isJavaErrorOpen st;
  javaErrorMessage := javaErrorMessage st |}.

(** The value a poll goes on with, or [None] when its [try] block throws. *)
Definition received {A : Type} (r : Response A) : option A :=
  match r with
  | Answered true (Some data) => Some data
  | _ => None
  end.

Definition pollStatus (r : Response LauncherStatus) (st : State)
  : list Effect * State :=
  match received r with
  | Some data => ([Fetch ApiStatus], setLauncherStatus data st)
  | None => ([Fetch ApiStatus; Console PollStatusError], st)
  end.

Definition offline : ServerStatus :=
  {| online := false; players_online := None; players_max := None |}.

Definition pollServerStatus (r : Response ServerStatus) (st : State)
  : list Effect * State :=
  match received r with
  | Some data => ([Fetch ApiServerStatus], setServerStatus data st)
  | None =>
    ([Fetch ApiServerStatus; Console PollServerStatusError],
     setServerStatus offline st)
  end.

(** One firing of either loop, with the backend's answer to it. *)
Inductive Poll :=
| StatusPoll (r : Response LauncherStatus)
| ServerPoll (r : Response ServerStatus).

Definition poll (p : Poll) (st : State) : list Effect * State :=
  match p with
  | StatusPoll r => pollStatus r st
  | ServerPoll r => pollServerStatus r st
  end.

(** The polls of a run, in the order their answers arrive. *)
Fixpoint polls (ps : list Poll) (st : State) : list Effect * State :=
  match ps with
  | [] => ([], st)
  | p :: ps' =>
    let '(effects, st') := poll p st in
    let '(effects', st'') := polls ps' st' in
    (effects ++ effects', st'')
  end.

(** *** The effect on [launcherStatus.status_text] *)

Definition isRealError (statusText : jsstring) : bool :=
  startsWith statusText (lit "Ошибка:") ||
  startsWith statusText (lit "Error:") ||
  includes statusText (lit "требуется Java") ||
  includes statusText (lit "не найдена") ||
  includes statusText (lit "не удалось") ||
  includes statusText (lit "Обнаружены изменения").

(** [statusText.toLowerCase().includes("java")]. *)
Definition mentionsJava (statusText : jsstring) : bool :=
  includes (toLowerCase statusText) (lit "java").

Definition errorToast (statusText : jsstring) : ToastMessage := {|
  title := lit "Произошла ошибка";
  description := replace statusText (lit "Ошибка: ") [];
  destructive := true;
  duration := 8000 |}.

Definition statusTextEffect (st : State) : list Effect * State :=
  let statusText := status_text (launcherStatus st) in
  if isRealError statusText then
    if mentionsJava statusText then ([], handleJavaError statusText st)
    else ([Toast (errorToast statusText)], st)
  else ([], st).

(** The three ways the effect can go. *)
Inductive ErrorClass := JavaEnvironment | GenericError | Informational.

Definition classify (statusText : jsstring) : ErrorClass :=
  if isRealError statusText then
    if mentionsJava statusText then JavaEnvironment else GenericError
  else Informational.

(** *** The game directory of [handleDownloadClick] *)

(** [finalPath] as [handleDownloadClick] computes it from the picked [path]. *)
Definition finalPath (path : jsstring) : jsstring :=
  let finalPath := stripTrailingSeparators path in
  if negb (testIgnoreCase finalPath (lit "kristory client")) then
    finalPath ++ (if includes finalPath (lit "\") then lit "\" else lit "/")
      ++ lit "Kristory Client"
  else finalPath.

(** The [game_directory] the handler posts for the picker's answer
    ([if (path)]: neither [null] nor empty). *)
Definition postedDirectory (picked : option jsstring) : option jsstring :=
  match picked with
  | Some (c :: path) => Some (finalPath (c :: path))
  | _ => None
  end.

End Home.

(** ** The settings dialog ([SettingsDialog]) *)

Module Settings.

#[local] Open Scope N_scope.

Import Home.

Inductive ModStatus := enabled | disabled.

Record Mod := {
  filename : jsstring;
  name : jsstring;
  description : jsstring;
  status : ModStatus
}.

Record JavaSettings := {
  path : jsstring;
  min_mem : N;
  max_mem : N
}.

(** The state variables of the dialog the modelled handlers read or write. *)
Record State := {
  mods : list Mod;
  javaSettings : JavaSettings;
  initialGameSettings : GameSettings;
  gameSettings : GameSettings
}.

Inductive Request :=
| PostModsState (filename : jsstring) (enable : bool)
| PostConfigJava (settingsData : JavaSettings)
| PostConfigGame (settingsData : GameSettings)
| GetConfig.

Inductive ToastMessage :=
| ModToggleFailed
| SettingsSaved
| RestartRequired
| SettingsNotSaved.

(** What a handler does besides setting state, in the order it does it. *)
Inductive Effect :=
| Fetch (request : Request)
| Sleep (ms : N)
| Toast (message : ToastMessage)
| OnSettingsChange.

(** The initial values of [useState]. *)
Definition initialState : State := {|
  mods := [];
  javaSettings := {| path := []; min_mem := 1024; max_mem := 4096 |};
  initialGameSettings :=
    {| server_address := []; enable_logs := false; game_directory := [] |};
  gameSettings :=
    {| server_address := []; enable_logs := false; game_directory := [] |} |}.

Definition setMods (ms : list Mod) (st : State) : State := {|
  mods := ms;
  javaSettings := javaSettings st;
  initialGameSettings := initialGameSettings st;
  gameSettings := gameSettings st |}.

(** *** Enabling and disabling a mod *)

(** [{ ...m, status: enabled ? 'enabled' : 'disabled' }]. *)
Definition withStatus (m : Mod) (enabled' : bool) : Mod := {|
  filename := filename m;
  name := name m;
  description := description m;
  status := if enabled' then enabled else disabled |}.

(** The list [handleToggleMod] sets at once:
    [mods.map(m => m.filename === filename ? {...} : m)]. *)
Definition optimisticMods (mods : list Mod) (filename' : jsstring)
    (enabled' : bool) : list Mod :=
  (fun m => if str_eqb (filename m) filename' then withStatus m enabled'
            else m) <$> mods.

(** Whether the [try] block of a write goes through: the request is answered
    and [res.ok] holds. *)
Definition accepted {A : Type} (r : Response A) : bool :=
  match r with
  | Answered ok _ => ok
  | Rejected => false
  end.

(** [handleToggleMod(filename, enabled)], for the backend's answer to the
    POST of /api/mods/state. *)
Definition handleToggleMod (backend : Response unit) (filename' : jsstring)
    (enabled' : bool) (st : State) : list Effect * State :=
  let originalMods := mods st in
  let st1 := setMods (optimisticMods (mods st) filename' enabled') st in
  if accepted backend then
    ([Fetch (PostModsState filename' enabled')], st1)
  else
    ([Fetch (PostModsState filename' enabled'); Toast ModToggleFailed],
     setMods originalMods st1).

(** *** Saving settings *)

Inductive SettingsKey := java_settings | game_settings.

(** [settingsData] (of type [any] in the sources): every call passes java
    settings or game settings. *)
Inductive SettingsData :=
| JavaData (data : JavaSettings)
| GameData (data : GameSettings).

Definition postConfig (settingsData : SettingsData) : Request :=
  match settingsData with
  | JavaData d => PostConfigJava d
  | GameData d => PostConfigGame d
  end.

(** [settingsData.game_directory], [undefined] where there is none. *)
Definition data_game_directory (settingsData : SettingsData) : option jsstring :=
  match settingsData with
  | GameData d => Some (game_directory d)
  | JavaData _ => None
  end.

(** [settingsKey === 'game_settings' && settingsData.game_directory]: the
    directory the confirmation loop waits for, when the condition holds (the
    key is [game_settings] and the directory is a non-empty string). *)
Definition directoryToConfirm (settingsKey : SettingsKey)
    (settingsData : SettingsData) : option jsstring :=
  match settingsKey, data_game_directory settingsData with
  | game_settings, Some (c :: d) => Some (c :: d)
  | _, _ => None
  end.

(** [settingsKey === 'game_settings' &&
     settingsData.enable_logs !== initialGameSettings.enable_logs]. *)
Definition logsChanged (settingsKey : SettingsKey) (settingsData : SettingsData)
    (st : State) : bool :=
  match settingsKey, settingsData with
  | game_settings, GameData d =>
    negb (Bool.eqb (enable_logs d) (enable_logs (initialGameSettings st)))
  | game_settings, JavaData _ => true
  | java_settings, _ => false
  end.

(** How the confirmation loop ends: a read echoed the directory ([updated]
    is set and the loop left), the five reads are over without an echo, or a
    read threw (a rejected request or a body that is not JSON). *)
Inductive Confirmation := Echoed | NotEchoed | ReadThrew.

(** The loop [for (let i = 0; i < 5; i++)] from index [i] on, with
    [remaining = 5 - i] rounds to go.  [reads n] is the answer to the [n]-th
    GET of /api/config; its body is
    [config?.game_settings?.game_directory], [None] for [undefined]. *)
Fixpoint confirmationLoop (reads : nat -> Response (option jsstring))
    (written : jsstring) (i remaining : nat) : list Effect * Confirmation :=
  match remaining with
  | O => ([], NotEchoed)
  | S remaining' =>
    let next :=
      let '(effects, c) := confirmationLoop reads written (S i) remaining' in
      (Fetch GetConfig :: Sleep 200 :: effects, c) in
    match reads i with
    | Rejected => ([Fetch GetConfig], ReadThrew)
    | Answered false _ => next
    | Answered true None => ([Fetch GetConfig], ReadThrew)
    | Answered true (Some echo) =>
      if bool_decide (echo = Some written) then ([Fetch GetConfig], Echoed)
      else next
    end
  end.

(** The end of the [try] block, after the write is acknowledged and, where
    there is one, confirmed. *)
Definition saved (settingsKey : SettingsKey) (settingsData : SettingsData)
    (st : State) : list Effect :=
  Toast SettingsSaved ::
  (if logsChanged settingsKey settingsData st then [Toast RestartRequired]
   else []) ++ [OnSettingsChange].

(** [handleSaveSettings(settingsKey, settingsData)], for the backend's answer
    to the POST and to the reads that follow it. *)
Definition handleSaveSettings (write : Response unit)
    (reads : nat -> Response (option jsstring)) (settingsKey : SettingsKey)
    (settingsData : SettingsData) (st : State) : list Effect :=
  if accepted write then
    match directoryToConfirm settingsKey settingsData with
    | Some written =>
      let '(effects, c) := confirmationLoop reads written 0 5 in
      match c with
      | Echoed =>
        Fetch (postConfig settingsData) :: effects
          ++ saved settingsKey settingsData st
      | _ =>
        Fetch (postConfig settingsData) :: effects ++ [Toast SettingsNotSaved]
      end
    | None =>
      Fetch (postConfig settingsData) :: saved settingsKey settingsData st
    end
  else [Fetch (postConfig settingsData); Toast SettingsNotSaved].

(** *** The game directory of [handleSelectGameDirectory] *)

(** [/([\\/]|^)Kristory Client([\\/]|$)/i.test(path)].  [nameThenEnd s]: the
    name, in any case, at the start of [s], followed by a separator or by
    the end of the string. *)
Definition nameThenEnd (s : jsstring) : bool :=
  match matchIgnoreCase s (lit "Kristory Client") with
  | Some [] => true
  | Some (c :: _) => isSeparator c
  | None => false
  end.

(** A match that starts at the head of [s]; [atStart] tells whether [s] is
    the whole string, where [^] matches. *)
Definition matchesHere (atStart : bool) (s : jsstring) : bool :=
  match s with
  | c :: s' => isSeparator c && nameThenEnd s'
  | [] => false
  end || (atStart && nameThenEnd s).

Fixpoint matchesFrom (atStart : bool) (s : jsstring) : bool :=
  matchesHere atStart s ||
  match s with
  | [] => false
  | _ :: s' => matchesFrom false s'
  end.

Definition hasClientFolder (path : jsstring) : bool := matchesFrom true path.

(** [finalPath] as [handleSelectGameDirectory] computes it from the picked
    [path]. *)
Definition finalPath (path : jsstring) : jsstring :=
  if negb (hasClientFolder path) then
    stripTrailingSeparators path
      ++ (if endsWith path (lit "\") || endsWith path (lit "/") then []
          else if includes path (lit "\") then lit "\" else lit "/")
      ++ lit "Kristory Client"
  else path.

(** The [game_directory] the handler saves for the picker's answer
    ([if (path)]: neither [null] nor empty). *)
Definition selectedDirectory (picked : option jsstring) : option jsstring :=
  match picked with
  | Some (c :: path) => Some (finalPath (c :: path))
  | _ => None
  end.

End Settings.

(** ** Vocabulary for the properties *)

Module Spec.

#[local] Open Scope N_scope.

(** A text carries a recognized error marker: one of the two prefixes, or
    one of the four phrases anywhere. *)
Definition HasErrorMarker (t : jsstring) : Prop :=
  (exists r, t = lit "Ошибка:" ++ r) \/
  (exists r, t = lit "Error:" ++ r) \/
  (exists a b, t = a ++ lit "требуется Java" ++ b) \/
  (exists a b, t = a ++ lit "не найдена" ++ b) \/
  (exists a b, t = a ++ lit "не удалось" ++ b) \/
  (exists a b, t = a ++ lit "Обнаружены изменения" ++ b).

(** A text mentions Java: the letters j, a, v, a in a row, each in either
    case. *)
Definition MentionsJava (t : jsstring) : Prop :=
  exists a c1 c2 c3 c4 b,
    t = a ++ [c1; c2; c3; c4] ++ b /\
    (c1 = 74 \/ c1 = 106) /\ (c2 = 65 \/ c2 = 97) /\
    (c3 = 86 \/ c3 = 118) /\ (c4 = 65 \/ c4 = 97).

(** *** Observations on the effects of a run of [Home] *)

(** The delays of the timers set, in the order they are set. *)
Fixpoint timeouts (effects : list Home.Effect) : list N :=
  match effects with
  | [] => []
  | Home.SetTimeout delay :: rest => delay :: timeouts rest
  | _ :: rest => timeouts rest
  end.

Definition isFetch (endpoint : Home.Endpoint) (e : Home.Effect) : bool :=
  match e, endpoint with
  | Home.Fetch Home.ApiConfig, Home.ApiConfig
  | Home.Fetch Home.ApiCheckJava, Home.ApiCheckJava
  | Home.Fetch Home.ApiStatus, Home.ApiStatus
  | Home.Fetch Home.ApiServerStatus, Home.ApiServerStatus => true
  | _, _ => false
  end.

(** How many requests a run sends to an endpoint. *)
Fixpoint fetches (endpoint : Home.Endpoint) (effects : list Home.Effect) : nat :=
  match effects with
  | [] => 0%nat
  | e :: rest =>
    ((if isFetch endpoint e then 1 else 0) + fetches endpoint rest)%nat
  end.

(** Whether a run reports that the retries are used up. *)
Fixpoint gaveUp (effects : list Home.Effect) : bool :=
  match effects with
  | [] => false
  | Home.Console Home.FailedAfterRetries :: _ => true
  | _ :: rest => gaveUp rest
  end.

(** The effects of [n] failed attempts in a row that each schedule a retry,
    begun with [retries] retries left and the delay [delay]. *)
Fixpoint failedAttempts (n retries : nat) (delay : N) : list Home.Effect :=
  match n with
  | O => []
  | S n' =>
    Home.Fetch Home.ApiConfig :: Home.Console Home.AttemptFailed
      :: Home.Console (Home.Retrying delay retries) :: Home.SetTimeout delay
      :: failedAttempts n' (pred retries) (delay * 2)
  end.

(** Some attempt among those numbered [attempt] to [attempt + retries]
    receives a configuration. *)
Fixpoint succeedsWithin (backend : nat -> Response Home.ConfigJson)
    (attempt retries : nat) : bool :=
  match Home.receivedConfig (backend attempt), retries with
  | Some _, _ => true
  | None, S retries' => succeedsWithin backend (S attempt) retries'
  | None, O => false
  end.

(** A poll that is not an answered server-status poll (a launcher-status
    poll, or a server-status poll that fails). *)
Definition noServerAnswer (p : Home.Poll) : bool :=
  match p with
  | Home.StatusPoll _ => true
  | Home.ServerPoll r => bool_decide (Home.received r = None)
  end.

(** *** Observations on a save of the settings dialog *)

(** A read of the confirmation loop that is answered and does not echo the
    written directory: a status that is not 2xx, or a JSON body whose
    [game_settings.game_directory] is another value or missing. *)
Definition answersWithoutEcho (written : jsstring)
    (r : Response (option jsstring)) : bool :=
  match r with
  | Answered false _ => true
  | Answered true (Some echo) => negb (bool_decide (echo = Some written))
  | _ => false
  end.

(** [n] rounds of the loop that go on: a read, then 200 ms of sleep. *)
Fixpoint waitingRounds (n : nat) : list Settings.Effect :=
  match n with
  | O => []
  | S n' =>
    Settings.Fetch Settings.GetConfig :: Settings.Sleep 200 :: waitingRounds n'
  end.

(** How many times a run reads the configuration. *)
Fixpoint configReads (effects : list Settings.Effect) : nat :=
  match effects with
  | [] => 0%nat
  | Settings.Fetch Settings.GetConfig :: rest => S (configReads rest)
  | _ :: rest => configReads rest
  end.

(** *** Observations on a picked directory *)

(** [path.endsWith('\\') || path.endsWith('/')]. *)
Definition endsWithSeparator (path : jsstring) : bool :=
  endsWith path (lit "\") || endsWith path (lit "/").

(** [s] contains [p] when the case of ASCII letters is ignored. *)
Definition ContainsIgnoringCase (s p : jsstring) : Prop :=
  exists a w b, s = a ++ w ++ b /\ map canonicalize w = map canonicalize p.

(** What precedes a path component: nothing, or text ending in a
    separator. *)
Definition StartsComponent (a : jsstring) : Prop :=
  a = [] \/ exists a' c, a = a' ++ [c] /\ isSeparator c = true.

(** What follows a path component: nothing, or text beginning with a
    separator. *)
Definition EndsComponent (b : jsstring) : Prop :=
  b = [] \/ exists c b', b = c :: b' /\ isSeparator c = true.

(** [s] has a component that is [p] when the case of ASCII letters is
    ignored. *)
Definition HasComponentIgnoringCase (s p : jsstring) : Prop :=
  exists a w b, s = a ++ w ++ b /\ map canonicalize w = map canonicalize p /\
    StartsComponent a /\ EndsComponent b.

(** The separator the handlers append: [includes('\\') ? '\\' : '/']. *)
Definition separatorOf (path : jsstring) : jsstring :=
  if includes path (lit "\") then lit "\" else lit "/".

End Spec.

(** ** The rest of the main page *)

(** The handlers of [Home] besides the bootstrap fetch and the polls.  A
    handler's effects are listed in the order of its own text; a call it does
    not await is listed where it is made. *)
Module Page.

#[local] Open Scope N_scope.

(** *** Update notifications *)

(** [updateMessage] and [isUpdateReady]. *)
Record UpdateState := {
  updateMessage : jsstring;
  isUpdateReady : bool
}.

Definition initialUpdateState : UpdateState :=
  {| updateMessage := []; isUpdateReady := false |}.

(** What the main process pushes to the two listeners registered on mount. *)
Inductive UpdateEvent :=
| OnUpdateMessage (message : jsstring)
| OnUpdateDownloaded.

Definition onUpdateEvent (e : UpdateEvent) (st : UpdateState) : UpdateState :=
  match e with
  | OnUpdateMessage message =>
    {| updateMessage := message; isUpdateReady := isUpdateReady st |}
  | OnUpdateDownloaded =>
    {| updateMessage := lit "Обновление готово к установке!";
       isUpdateReady := true |}
  end.

Definition onUpdateEvents (events : list UpdateEvent) (st : UpdateState)
  : UpdateState :=
  fold_left (fun st e => onUpdateEvent e st) events st.

(** The left of the footer: the restart button, or the message. *)
Inductive Footer :=
| RestartButton
| UpdateText (message : jsstring).

Definition footer (st : UpdateState) : Footer :=
  if isUpdateReady st then RestartButton else UpdateText (updateMessage st).

(** *** The game-launched flag *)

(** The effect on [launcherStatus.status_text] that keeps [gameHasLaunched]:
    whether it minimizes the window, and the flag after it.  [canMinimize] is
    [window.electronAPI?.minimizeWindow]. *)
Definition gameLaunchEffect (canMinimize : bool) (statusText : jsstring)
    (gameHasLaunched : bool) : bool * bool :=
  if startsWith statusText (lit "Игра запущена") then (canMinimize, true)
  else if includes statusText (lit "Игра закрыта")
          || includes statusText (lit "Процесс остановлен") then (false, false)
  else (false, gameHasLaunched).

(** The flag after the status texts of a run, one after the other. *)
Definition gameLaunchEffects (canMinimize : bool) (statusTexts : list jsstring)
    (gameHasLaunched : bool) : bool :=
  fold_left (fun flag text => (gameLaunchEffect canMinimize text flag).2)
    statusTexts gameHasLaunched.

(** *** What is shown *)

(** The line under the action button. *)
Inductive StatusLine :=
| Progress (text : jsstring) (value : N)
| ErrorLine (text : jsstring)
| ReadyToLaunch
| ReadyToInstall.

Definition statusLine (status : Home.LauncherStatus) : StatusLine :=
  if Home.is_processing status then
    Progress (Home.status_text status) (Home.progress status)
  else if includes (Home.status_text status) (lit "Ошибка:") then
    ErrorLine (replace (Home.status_text status) (lit "Ошибка: ") [])
  else if Home.is_game_installed status then ReadyToLaunch
  else ReadyToInstall.

(** The handlers the action button can be bound to. *)
Inductive Handler :=
| HandlePlayClick
| StartVerificationProcess
| HandleDownloadClick.

(** [renderActionButton]: the spinner, or a button with its handler and
    whether it is disabled. *)
Inductive ActionButton :=
| Spinner
| Button (onClick : Handler) (disabled : bool).

(** [!!launcherConfig?.game_settings?.game_directory]. *)
Definition isGameDirSet (st : Home.State) : bool :=
  match Home.launcherConfig st with
  | Some config =>
    match Home.game_directory (Home.game_settings config) with
    | [] => false
    | _ :: _ => true
    end
  | None => false
  end.

Definition noAccount (st : Home.State) : bool :=
  match Home.selectedAccount st with
  | Some _ => false
  | None => true
  end.

Definition renderActionButton (st : Home.State) (gameHasLaunched : bool)
  : ActionButton :=
  if Home.is_processing (Home.launcherStatus st) then Spinner
  else if Home.is_game_installed (Home.launcherStatus st) then
    Button HandlePlayClick (noAccount st || gameHasLaunched)
  else
    Button (if isGameDirSet st then StartVerificationProcess
            else HandleDownloadClick)
      (noAccount st).

(** The handler a click on the action button runs: none for the spinner and
    for a disabled button. *)
Definition clicked (b : ActionButton) : option Handler :=
  match b with
  | Button onClick false => Some onClick
  | _ => None
  end.

(** *** Requests of the handlers *)

Record Notice := {
  title : jsstring;
  description : jsstring;
  destructive : bool
}.

Inductive Request :=
| PostLastSelectedUuid (last_selected_uuid : jsstring)
| PostLaunch (selected_account_uuid : jsstring)
| PostVerifyFiles
| PostGameDirectory (game_directory : jsstring).

Inductive Action :=
| Send (request : Request)
| ConsoleError
| Toast (notice : Notice)
| Bootstrap (effect : Home.Effect).

(** [value || fallback] for a string that may be missing. *)
Definition orElse (value : option jsstring) (fallback : jsstring) : jsstring :=
  match value with
  | Some (c :: s) => c :: s
  | _ => fallback
  end.

Definition setSelectedAccount (account : option Home.Account)
    (st : Home.State) : Home.State := {|
  Home.accounts := Home.accounts st;
  Home.selectedAccount := account;
  Home.launcherStatus := Home.launcherStatus st;
  Home.serverStatus := Home.serverStatus st;
  Home.launcherConfig := Home.launcherConfig st;
  Home.isJavaErrorOpen := Home.isJavaErrorOpen st;
  Home.javaErrorMessage := Home.javaErrorMessage st |}.

(** [handleSelectAccount(account)], for the backend's answer to the POST of
    [last_selected_uuid]; the answer's status is not looked at. *)
Definition handleSelectAccount (save : Response unit) (account : Home.Account)
    (st : Home.State) : list Action * Home.State :=
  (Send (PostLastSelectedUuid (Home.uuid account))
     :: match save with
        | Rejected => [ConsoleError]
        | Answered _ _ => []
        end,
   setSelectedAccount (Some account) st).

(** [handlePlayClick], for the backend's answer to POST /api/launch (its body
    is [errorData.message]); [thrown] is the message of the exception a
    rejected request or a body that is not JSON raises. *)
Definition handlePlayClick (thrown : jsstring)
    (launch : Response (option jsstring)) (st : Home.State) : list Action :=
  match Home.selectedAccount st with
  | None =>
    [Toast {| title := lit "Ошибка";
              description := lit "Пожалуйста, выберите аккаунт.";
              destructive := true |}]
  | Some selectedAccount =>
    if Home.is_processing (Home.launcherStatus st) then []
    else
      let failed message :=
        [ConsoleError;
         Toast {| title := lit "Ошибка запуска"; description := message;
                  destructive := true |}] in
      Send (PostLaunch (Home.uuid selectedAccount))
        :: match launch with
           | Answered true _ => []
           | Answered false (Some message) =>
             failed (orElse message (lit "Failed to start launch process"))
           | Answered false None => failed thrown
           | Rejected => failed thrown
           end
  end.

(** [startVerificationProcess], for the backend's answer to POST
    /api/verify-files (its body is [errorData.error]). *)
Definition startVerificationProcess (thrown : jsstring)
    (verify : Response (option jsstring)) (st : Home.State) : list Action :=
  if Home.is_processing (Home.launcherStatus st) then []
  else
    let failed message :=
      [ConsoleError;
       Toast {| title := lit "Ошибка загрузки"; description := message;
                destructive := true |}] in
    Send PostVerifyFiles
      :: match verify with
         | Answered true _ =>
           [Toast {| title := lit "Загрузка началась";
                     description :=
                       lit "Вы можете следить за статусом в лаунчере.";
                     destructive := false |}]
         | Answered false (Some error) =>
           failed (orElse error (lit "Failed to start download process"))
         | Answered false None => failed thrown
         | Rejected => failed thrown
         end.

(** One call [fetchBackendData()] up to the point where its promise
    resolves: the attempt itself; the retry it may schedule runs from the
    timer, after the caller has gone on. *)
Definition fetchBackendData_call (answer : Response Home.ConfigJson)
    (java : Response jsstring) (st : Home.State)
  : list Home.Effect * Home.State :=
  match Home.receivedConfig answer with
  | Some config =>
    let '(effects, st') :=
      Home.checkJavaVersion java (Home.populate config st) in
    (Home.Fetch Home.ApiConfig :: effects, st')
  | None =>
    ([Home.Fetch Home.ApiConfig; Home.Console Home.AttemptFailed;
      Home.Console (Home.Retrying 500 5); Home.SetTimeout 500], st)
  end.

(** [handleDownloadClick].  [electronAPI] tells whether [window.electronAPI]
    is there, [picked] is the answer of the directory picker, [save] the
    backend's answer to the POST of the directory, [answer] and [java] its
    answers to the awaited [fetchBackendData()], [verify] its answer to
    [startVerificationProcess()], which reads the state of the render the
    handler belongs to. *)
Definition handleDownloadClick (electronAPI : bool) (picked : option jsstring)
    (thrown : jsstring) (save : Response unit)
    (answer : Response Home.ConfigJson) (java : Response jsstring)
    (verify : Response (option jsstring)) (st : Home.State)
  : list Action * Home.State :=
  let saveFailed message :=
    Toast {| title := lit "Ошибка";
             description := lit "Не удалось сохранить путь: " ++ message;
             destructive := true |} in
  match Home.selectedAccount st with
  | None =>
    ([Toast {| title := lit "Требуется аккаунт";
               description :=
                 lit "Пожалуйста, добавьте аккаунт, чтобы скачать сборку.";
               destructive := true |}], st)
  | Some _ =>
    if negb electronAPI then ([], st)
    else
      match Home.postedDirectory picked with
      | None =>
        ([Toast {| title := lit "Отменено";
                   description := lit "Вы не выбрали папку для установки.";
                   destructive := false |}], st)
      | Some finalPath =>
        match save with
        | Answered true _ =>
          let '(effects, st') := fetchBackendData_call answer java st in
          (Send (PostGameDirectory finalPath)
             :: map Bootstrap effects
             ++ startVerificationProcess thrown verify st, st')
        | Answered false _ =>
          ([Send (PostGameDirectory finalPath);
            saveFailed (lit "Не удалось сохранить путь к папке")], st)
        | Rejected =>
          ([Send (PostGameDirectory finalPath); saveFailed thrown], st)
        end
      end
  end.

End Page.

(** ** The rest of the settings dialog *)

Module Dialog.

#[local] Open Scope N_scope.

(** The state of the dialog with its account list. *)
Record State := {
  settings : Settings.State;
  accounts : list Home.Account
}.

(** The fields of GET /api/config the dialog reads, each of which may be
    missing. *)
Record ConfigBody := {
  java_settings : option Settings.JavaSettings;
  game_settings : option Home.GameSettings
}.

Inductive Effect :=
| GetAccounts
| GetMods
| GetConfig
| ConsoleError
| LoadFailedToast.

Definition setAccounts (accs : list Home.Account) (st : State) : State :=
  {| settings := settings st; accounts := accs |}.

Definition setMods (ms : list Settings.Mod) (st : State) : State :=
  {| settings := Settings.setMods ms (settings st); accounts := accounts st |}.

Definition setJavaSettings (j : Settings.JavaSettings) (st : Settings.State)
  : Settings.State := {|
  Settings.mods := Settings.mods st;
  Settings.javaSettings := j;
  Settings.initialGameSettings := Settings.initialGameSettings st;
  Settings.gameSettings := Settings.gameSettings st |}.

Definition setGameSettings (g : Home.GameSettings) (st : Settings.State)
  : Settings.State := {|
  Settings.mods := Settings.mods st;
  Settings.javaSettings := Settings.javaSettings st;
  Settings.initialGameSettings := Settings.initialGameSettings st;
  Settings.gameSettings := g |}.

Definition setInitialGameSettings (g : Home.GameSettings)
    (st : Settings.State) : Settings.State := {|
  Settings.mods := Settings.mods st;
  Settings.javaSettings := Settings.javaSettings st;
  Settings.initialGameSettings := g;
  Settings.gameSettings := Settings.gameSettings st |}.

(** The two [if] statements of [fetchData] on the configuration. *)
Definition applyConfig (config : ConfigBody) (st : Settings.State)
  : Settings.State :=
  let st1 :=
    match java_settings config with
    | Some j => setJavaSettings j st
    | None => st
    end in
  match game_settings config with
  | Some g => setInitialGameSettings g (setGameSettings g st1)
  | None => st1
  end.

(** [fetchData], for the backend's answers to the three requests it sends
    at once.  The statuses are not looked at; a rejected request fails
    [Promise.all], and a body that is not JSON throws where it is read,
    after the state updates before it. *)
Definition fetchData (accRes : Response (list Home.Account))
    (modsRes : Response (list Settings.Mod)) (configRes : Response ConfigBody)
    (st : State) : list Effect * State :=
  let failed st' :=
    ([GetAccounts; GetMods; GetConfig; ConsoleError; LoadFailedToast], st') in
  match accRes, modsRes, configRes with
  | Answered _ accBody, Answered _ modsBody, Answered _ configBody =>
    match accBody with
    | None => failed st
    | Some accs =>
      match modsBody with
      | None => failed (setAccounts accs st)
      | Some ms =>
        match configBody with
        | None => failed (setMods ms (setAccounts accs st))
        | Some config =>
          ([GetAccounts; GetMods; GetConfig],
           {| settings :=
                applyConfig config (Settings.setMods ms (settings st));
              accounts := accs |})
        end
      end
    end
  | _, _, _ => failed st
  end.

(** The switch of the debug tab:
    [setGameSettings({...gameSettings, enable_logs: checked})]. *)
Definition onLogsSwitch (checked : bool) (st : Settings.State)
  : Settings.State :=
  setGameSettings
    {| Home.server_address := Home.server_address (Settings.gameSettings st);
       Home.enable_logs := checked;
       Home.game_directory := Home.game_directory (Settings.gameSettings st) |}
    st.

(** The button under it:
    [handleSaveSettings('game_settings', gameSettings)]. *)
Definition saveGameSettings (write : Response unit)
    (reads : nat -> Response (option jsstring)) (st : Settings.State)
  : list Settings.Effect :=
  Settings.handleSaveSettings write reads Settings.game_settings
    (Settings.GameData (Settings.gameSettings st)) st.

(** [{ ...gameSettings, game_directory: finalPath }]. *)
Definition withGameDirectory (g : Home.GameSettings) (finalPath : jsstring)
  : Home.GameSettings := {|
  Home.server_address := Home.server_address g;
  Home.enable_logs := Home.enable_logs g;
  Home.game_directory := finalPath |}.

(** [handleSelectGameDirectory]: [electronAPI] tells whether
    [window.electronAPI] is there, [picked] is the answer of the directory
    picker, [write] and [reads] are the backend's answers to the save. *)
Definition handleSelectGameDirectory (electronAPI : bool)
    (picked : option jsstring) (write : Response unit)
    (reads : nat -> Response (option jsstring)) (st : Settings.State)
  : list Settings.Effect * Settings.State :=
  if electronAPI then
    match Settings.selectedDirectory picked with
    | Some finalPath =>
      let data := withGameDirectory (Settings.gameSettings st) finalPath in
      (Settings.handleSaveSettings write reads Settings.game_settings
         (Settings.GameData data) st,
       setGameSettings data st)
    | None => ([], st)
    end
  else ([], st).

End Dialog.

(** ** The dialog that adds an account ([AddAccountDialog]) *)

Module AddAccount.

#[local] Open Scope N_scope.

Record State := {
  email : jsstring;
  password : jsstring;
  isLoading : bool
}.

(** The body of the answer to POST /api/auth/elyby: [data.error] and
    [data.username], each of which may be missing. *)
Record AuthBody := {
  error : option jsstring;
  username : option jsstring
}.

Inductive Effect :=
| PostAuth (email password : jsstring)
| ConsoleError
| AddedToast (username : option jsstring)
| ErrorToast (description : jsstring)
| OnAccountAdded
| OnOpenChange (open : bool).

Definition setIsLoading (loading : bool) (st : State) : State :=
  {| email := email st; password := password st; isLoading := loading |}.

Definition isEmpty (s : jsstring) : bool :=
  match s with
  | [] => true
  | _ :: _ => false
  end.

(** [handleAddAccount], for the backend's answer to the POST; [thrown] is
    the message of the exception a rejected request or a body that is not
    JSON raises.  The body is read before the status is looked at. *)
Definition handleAddAccount (thrown : jsstring) (response : Response AuthBody)
    (st : State) : list Effect * State :=
  if isLoading st || isEmpty (email st) || isEmpty (password st) then ([], st)
  else
    let failed message :=
      ([PostAuth (email st) (password st); ConsoleError; ErrorToast message],
       setIsLoading false (setIsLoading true st)) in
    match response with
    | Rejected => failed thrown
    | Answered _ None => failed thrown
    | Answered false (Some data) =>
      failed (Page.orElse (error data) (lit "Не удалось добавить аккаунт"))
    | Answered true (Some data) =>
      ([PostAuth (email st) (password st); AddedToast (username data);
        OnAccountAdded; OnOpenChange false],
       {| email := []; password := []; isLoading := false |})
    end.

(** [handleOpenChange(open)]. *)
Definition handleOpenChange (open : bool) (st : State) : list Effect * State :=
  ([OnOpenChange open],
   if open then st else {| email := []; password := []; isLoading := false |}).

End AddAccount.

(** ** More vocabulary for the properties *)

Module Observe.

#[local] Open Scope N_scope.



(** The time a save spends sleeping, in ms. *)
Fixpoint slept (effects : list Settings.Effect) : N :=
  match effects with
  | [] => 0
  | Settings.Sleep ms :: rest => ms + slept rest
  | _ :: rest => slept rest
  end.

(** A text without either of the phrases that end a game session. *)
Definition keepsSession (statusText : jsstring) : bool :=
  negb (includes statusText (lit "Игра закрыта")
        || includes statusText (lit "Процесс остановлен")).

End Observe.

#[local] Open Scope N_scope.

(** ** Strings *)

Example lit_cyrillic : lit "Готов" = [1043; 1086; 1090; 1086; 1074].
Proof. reflexivity. Qed.

Example lit_ascii : lit "java" = [106; 97; 118; 97].
Proof. reflexivity. Qed.

Example lit_separators : lit "C:\a/" = [67; 58; 92; 97; 47].
Proof. reflexivity. Qed.

Lemma startsWith_spec (s p : jsstring) :
  startsWith s p = true <-> exists r, s = p ++ r.
Proof.
  revert s; induction p as [|c p IH]; intros s; simpl.
  - split; eauto.
  - destruct s as [|d s].
    + split; [discriminate | intros [r Hr]; discriminate].
    + rewrite andb_true_iff, N.eqb_eq, IH. split.
      * intros [-> [r ->]]. now exists r.
      * intros [r Hr]. injection Hr as -> ->. eauto.
Qed.

Lemma includes_spec (s p : jsstring) :
  includes s p = true <-> exists a b, s = a ++ p ++ b.
Proof.
  induction s as [|c s IH]; simpl.
  - rewrite orb_false_r, startsWith_spec. split.
    + intros [r Hr]. now exists [], r.
    + intros [a [b Hab]]. destruct a; [now exists b | discriminate].
  - rewrite orb_true_iff, startsWith_spec, IH. split.
    + intros [[r Hr] | [a [b Hab]]].
      * now exists [], r.
      * exists (c :: a), b. now rewrite Hab.
    + intros [[|d a] [b Hab]].
      * left. now exists b.
      * right. injection Hab as -> ->. eauto.
Qed.

Lemma includes_app (a p b : jsstring) : includes (a ++ p ++ b) p = true.
Proof. apply includes_spec. eauto. Qed.

(** Case analysis on the comparisons of code units. *)
Ltac unit_cases :=
  repeat case_match;
  repeat match goal with
  | H : (_ && _) = true |- _ => apply andb_true_iff in H as [? ?]
  | H : (_ && _) = false |- _ => apply andb_false_iff in H as [?|?]
  | H : (_ || _) = true |- _ => apply orb_true_iff in H as [?|?]
  | H : (_ || _) = false |- _ => apply orb_false_iff in H as [? ?]
  | H : (_ <=? _) = true |- _ => apply N.leb_le in H
  | H : (_ <=? _) = false |- _ => apply N.leb_gt in H
  | H : (_ =? _) = true |- _ => apply N.eqb_eq in H
  | H : (_ =? _) = false |- _ => apply N.eqb_neq in H
  end;
  try lia.

Lemma lowerUnit_j (c : N) : lowerUnit c = 106 <-> c = 74 \/ c = 106.
Proof. unfold lowerUnit. unit_cases. Qed.

Lemma lowerUnit_a (c : N) : lowerUnit c = 97 <-> c = 65 \/ c = 97.
Proof. unfold lowerUnit. unit_cases. Qed.

Lemma lowerUnit_v (c : N) : lowerUnit c = 118 <-> c = 86 \/ c = 118.
Proof. unfold lowerUnit. unit_cases. Qed.

(** [toLowerCase] followed by [includes("java")] finds the word in either
    case of each letter, and nothing else. *)
Lemma mentionsJava_spec (t : jsstring) :
  Home.mentionsJava t = true <-> Spec.MentionsJava t.
Proof.
  unfold Home.mentionsJava, Spec.MentionsJava, toLowerCase.
  rewrite includes_spec. change (lit "java") with [106; 97; 118; 97]. split.
  - intros (a & b & H).
    apply map_eq_app in H as (a' & r & -> & Ha & H).
    apply map_eq_app in H as (w & b' & -> & Hw & Hb).
    destruct w as [|c1 [|c2 [|c3 [|c4 [|? ?]]]]]; try discriminate.
    injection Hw as H1%lowerUnit_j H2%lowerUnit_a H3%lowerUnit_v H4%lowerUnit_a.
    now exists a', c1, c2, c3, c4, b'.
  - intros (a & c1 & c2 & c3 & c4 & b & -> & H1 & H2 & H3 & H4).
    exists (map lowerUnit a), (map lowerUnit b).
    rewrite !map_app. simpl.
    apply lowerUnit_j in H1. apply lowerUnit_a in H2, H4. apply lowerUnit_v in H3.
    now rewrite H1, H2, H3, H4.
Qed.

Lemma isRealError_spec (t : jsstring) :
  Home.isRealError t = true <-> Spec.HasErrorMarker t.
Proof.
  unfold Home.isRealError, Spec.HasErrorMarker.
  generalize (lit "Ошибка:") (lit "Error:") (lit "требуется Java")
    (lit "не найдена") (lit "не удалось") (lit "Обнаружены изменения").
  intros p1 p2 p3 p4 p5 p6.
  rewrite !orb_true_iff.
  rewrite (startsWith_spec t p1), (startsWith_spec t p2).
  rewrite (includes_spec t p3), (includes_spec t p4), (includes_spec t p5),
    (includes_spec t p6).
  tauto.
Qed.

(** ** The error classifier *)

Lemma statusTextEffect_classify (st : Home.State) :
  Home.statusTextEffect st =
  let t := Home.status_text (Home.launcherStatus st) in
  match Home.classify t with
  | Home.JavaEnvironment => ([], Home.handleJavaError t st)
  | Home.GenericError => ([Home.Toast (Home.errorToast t)], st)
  | Home.Informational => ([], st)
  end.
Proof.
  unfold Home.statusTextEffect, Home.classify. simpl.
  destruct (Home.isRealError _); [destruct (Home.mentionsJava _)|]; reflexivity.
Qed.

(** C4, as the code has it: a status text is a java-environment error
    exactly when it carries a recognized error marker and mentions Java (in
    any letter case), a generic error exactly when it carries a marker and
    does not mention Java, and informational exactly when it carries no
    marker, whether it mentions Java or not; the effect opens the Java
    dialog with the text in the first case, shows the error toast in the
    second and does nothing in the third. *)
Theorem classify_spec (t : jsstring) :
  (Home.classify t = Home.JavaEnvironment
     <-> Spec.HasErrorMarker t /\ Spec.MentionsJava t) /\
  (Home.classify t = Home.GenericError
     <-> Spec.HasErrorMarker t /\ ~ Spec.MentionsJava t) /\
  (Home.classify t = Home.Informational <-> ~ Spec.HasErrorMarker t) /\
  (forall st, Home.status_text (Home.launcherStatus st) = t ->
     Home.statusTextEffect st =
     match Home.classify t with
     | Home.JavaEnvironment => ([], Home.handleJavaError t st)
     | Home.GenericError => ([Home.Toast (Home.errorToast t)], st)
     | Home.Informational => ([], st)
     end).
Proof.
  rewrite <- isRealError_spec, <- mentionsJava_spec. unfold Home.classify.
  repeat split;
    try (intros st <-; apply statusTextEffect_classify);
    destruct (Home.isRealError t), (Home.mentionsJava t);
    intuition congruence.
Qed.

(** C4, as stated, fails: a text that mentions Java without an error marker
    raises no alert. *)
Lemma java_without_marker :
  let t := lit "Проверка версии Java" in
  Home.mentionsJava t = true /\
  Home.classify t = Home.Informational /\
  Home.statusTextEffect
    (Home.setLauncherStatus
       (Home.withStatusText t (Home.launcherStatus Home.initialState))
       Home.initialState)
  = ([], Home.setLauncherStatus
           (Home.withStatusText t (Home.launcherStatus Home.initialState))
           Home.initialState).
Proof. vm_compute. auto. Qed.

(** C5: the text "Ошибка: требуется Java" is a java-environment error (the
    Java dialog opens with it), "Обнаружены изменения" a generic error (the
    error toast is shown) and "Готов" informational (no alert). *)
Theorem classify_examples (st : Home.State) :
  let shown t :=
    Home.setLauncherStatus (Home.withStatusText t (Home.launcherStatus st)) st in
  (Home.classify (lit "Ошибка: требуется Java") = Home.JavaEnvironment /\
   Home.statusTextEffect (shown (lit "Ошибка: требуется Java"))
   = ([], Home.handleJavaError (lit "Ошибка: требуется Java")
            (shown (lit "Ошибка: требуется Java")))) /\
  (Home.classify (lit "Обнаружены изменения") = Home.GenericError /\
   Home.statusTextEffect (shown (lit "Обнаружены изменения"))
   = ([Home.Toast (Home.errorToast (lit "Обнаружены изменения"))],
      shown (lit "Обнаружены изменения"))) /\
  (Home.classify (lit "Готов") = Home.Informational /\
   Home.statusTextEffect (shown (lit "Готов")) = ([], shown (lit "Готов"))).
Proof.
  intros shown. subst shown. rewrite !statusTextEffect_classify.
  cbn [Home.setLauncherStatus Home.launcherStatus Home.withStatusText
       Home.status_text]; cbv zeta.
  assert (Hj : Home.classify (lit "Ошибка: требуется Java") = Home.JavaEnvironment)
    by (vm_compute; reflexivity).
  assert (Hg : Home.classify (lit "Обнаружены изменения") = Home.GenericError)
    by (vm_compute; reflexivity).
  assert (Hi : Home.classify (lit "Готов") = Home.Informational)
    by (vm_compute; reflexivity).
  rewrite Hj, Hg, Hi. auto.
Qed.

(** ** The bootstrap fetch *)

Section Bootstrap.

Variable backend : nat -> Response Home.ConfigJson.
Variable java : Response jsstring.

Lemma fetches_app (e : Home.Endpoint) (a b : list Home.Effect) :
  Spec.fetches e (a ++ b) = (Spec.fetches e a + Spec.fetches e b)%nat.
Proof. induction a as [|x a IH]; simpl; [reflexivity|]. rewrite IH. lia. Qed.

Lemma fetches_failedAttempts_java (n retries : nat) (delay : N) :
  Spec.fetches Home.ApiCheckJava (Spec.failedAttempts n retries delay) = 0%nat.
Proof. revert retries delay; induction n; intros; simpl; auto. Qed.


Lemma fetches_checkJavaVersion (st : Home.State) :
  Spec.fetches Home.ApiCheckJava (Home.checkJavaVersion java st).1 = 1%nat /\
  Spec.fetches Home.ApiConfig (Home.checkJavaVersion java st).1 = 0%nat /\
  Spec.gaveUp (Home.checkJavaVersion java st).1 = false /\
  Spec.timeouts (Home.checkJavaVersion java st).1 = [].
Proof. destruct java as [|[] []]; simpl; auto. Qed.

(** A run whose attempts all fail. *)
Lemma fetchBackendData_failure (retries : nat) :
  forall (attempt : nat) (delay : N) (st : Home.State),
  (forall i, (i <= retries)%nat ->
     Home.receivedConfig (backend (attempt + i)) = None) ->
  Home.fetchBackendData backend java attempt retries delay st =
  (Spec.failedAttempts retries retries delay
     ++ [Home.Fetch Home.ApiConfig; Home.Console Home.AttemptFailed;
         Home.Console Home.FailedAfterRetries],
   Home.giveUp st).
Proof.
  induction retries as [|r IH]; intros attempt delay st Hfail; simpl.
  - specialize (Hfail 0%nat (Nat.le_refl _)).
    rewrite Nat.add_0_r in Hfail. now rewrite Hfail.
  - pose proof (Hfail 0%nat (Nat.le_0_l _)) as H0.
    rewrite Nat.add_0_r in H0. rewrite H0.
    rewrite IH; [reflexivity|].
    intros i Hi. replace (S attempt + i)%nat with (attempt + S i)%nat by lia.
    apply Hfail. lia.
Qed.

(** A run whose attempt number [attempt + n] is the first to succeed. *)
Lemma fetchBackendData_success (n : nat) :
  forall (attempt retries : nat) (delay : N) (st : Home.State)
         (config : Home.LauncherConfig),
  (n <= retries)%nat ->
  (forall i, (i < n)%nat -> Home.receivedConfig (backend (attempt + i)) = None) ->
  Home.receivedConfig (backend (attempt + n)) = Some config ->
  Home.fetchBackendData backend java attempt retries delay st =
  (Spec.failedAttempts n retries delay
     ++ Home.Fetch Home.ApiConfig
     :: (Home.checkJavaVersion java (Home.populate config st)).1,
   (Home.checkJavaVersion java (Home.populate config st)).2).
Proof.
  induction n as [|n IH]; intros attempt retries delay st config Hle Hfail Hok.
  - rewrite Nat.add_0_r in Hok.
    destruct retries; simpl; rewrite Hok;
      now destruct (Home.checkJavaVersion _ _).
  - destruct retries as [|r]; [lia|]. simpl.
    pose proof (Hfail 0%nat (Nat.lt_0_succ _)) as H0.
    rewrite Nat.add_0_r in H0. rewrite H0.
    rewrite (IH (S attempt) r (delay * 2) st config); [reflexivity|lia| |].
    + intros i Hi. replace (S attempt + i)%nat with (attempt + S i)%nat by lia.
      apply Hfail. lia.
    + now replace (S attempt + n)%nat with (attempt + S n)%nat by lia.
Qed.

Lemma succeedsWithin_true (retries : nat) :
  forall attempt,
  Spec.succeedsWithin backend attempt retries = true ->
  exists n config, (n <= retries)%nat /\
    (forall i, (i < n)%nat -> Home.receivedConfig (backend (attempt + i)) = None) /\
    Home.receivedConfig (backend (attempt + n)) = Some config.
Proof.
  induction retries as [|r IH]; intros attempt; simpl;
    destruct (Home.receivedConfig (backend attempt)) as [c|] eqn:E.
  - intros _. exists 0%nat, c. rewrite Nat.add_0_r. repeat split; [lia|lia|auto].
  - discriminate.
  - intros _. exists 0%nat, c. rewrite Nat.add_0_r. repeat split; [lia|lia|auto].
  - intros (n & c & Hn & Hfail & Hok)%IH. exists (S n), c. repeat split.
    + lia.
    + intros [|i] Hi; [now rewrite Nat.add_0_r|].
      replace (attempt + S i)%nat with (S attempt + i)%nat by lia.
      apply Hfail. lia.
    + now replace (attempt + S n)%nat with (S attempt + n)%nat by lia.
Qed.

Lemma succeedsWithin_false (retries : nat) :
  forall attempt,
  Spec.succeedsWithin backend attempt retries = false ->
  forall i, (i <= retries)%nat ->
    Home.receivedConfig (backend (attempt + i)) = None.
Proof.
  induction retries as [|r IH]; intros attempt; simpl;
    destruct (Home.receivedConfig (backend attempt)) as [c|] eqn:E;
    try discriminate; intros H [|i] Hi; rewrite ?Nat.add_0_r; auto; [lia|].
  replace (attempt + S i)%nat with (S attempt + i)%nat by lia.
  apply (IH (S attempt)); [auto|lia].
Qed.

Lemma gaveUp_app (a b : list Home.Effect) :
  Spec.gaveUp (a ++ b) = Spec.gaveUp a || Spec.gaveUp b.
Proof.
  induction a as [|x a IH]; simpl; [reflexivity|].
  destruct x as [| [] | |]; auto.
Qed.

Lemma gaveUp_failedAttempts (n retries : nat) (delay : N) :
  Spec.gaveUp (Spec.failedAttempts n retries delay) = false.
Proof. revert retries delay; induction n; intros; simpl; auto. Qed.


(** C1, as the code has it: when every attempt of a run started with the
    default arguments (5 retries, 500 ms) fails, the timer set before retry
    [n] (1 <= n <= 5) has the delay 500 * 2^(n-1) ms, the five retries follow
    the first attempt, which makes six requests for the configuration before
    the run gives up, and giving up sets the status text to the fixed error
    string and clears the accounts and the selected account, leaving the
    rest of the state as it was. *)
Theorem bootstrap_backoff (st : Home.State) :
  (forall n, (n <= 5)%nat -> Home.receivedConfig (backend n) = None) ->
  let run := Home.fetchBackendData_default backend java st in
  Spec.timeouts run.1 = [500; 1000; 2000; 4000; 8000] /\
  (forall n, (1 <= n <= 5)%nat ->
     Spec.timeouts run.1 !! (n - 1)%nat = Some (500 * 2 ^ N.of_nat (n - 1))) /\
  Spec.fetches Home.ApiConfig run.1 = 6%nat /\
  Spec.gaveUp run.1 = true /\
  Home.status_text (Home.launcherStatus run.2) = lit "Ошибка API" /\
  Home.accounts run.2 = [] /\
  Home.selectedAccount run.2 = None /\
  run.2 = Home.giveUp st.
Proof.
  intros Hfail run. subst run. unfold Home.fetchBackendData_default.
  rewrite fetchBackendData_failure by (intros i Hi; now apply Hfail).
  cbn [fst snd]. repeat split.
  intros n Hn.
  assert (n = 1 \/ n = 2 \/ n = 3 \/ n = 4 \/ n = 5)%nat
    as [->|[->|[->|[->| ->]]]] by lia; reflexivity.
Qed.

(** C7: in every run of the bootstrap fetch, the Java check is requested
    once when one of the attempts receives a valid configuration and not at
    all otherwise; a run that gives up has not requested it; and in a run
    that succeeds the request comes after the attempt that succeeded, the
    failed attempts before it having made none. *)
Theorem checkJava_only_on_success (attempt retries : nat) (delay : N)
    (st : Home.State) :
  let effects :=
    (Home.fetchBackendData backend java attempt retries delay st).1 in
  (Spec.fetches Home.ApiCheckJava effects = 1%nat <->
     exists n, (n <= retries)%nat /\
       is_Some (Home.receivedConfig (backend (attempt + n)))) /\
  (Spec.fetches Home.ApiCheckJava effects = 0%nat <->
     forall n, (n <= retries)%nat ->
       Home.receivedConfig (backend (attempt + n)) = None) /\
  (Spec.gaveUp effects = true <->
     Spec.fetches Home.ApiCheckJava effects = 0%nat) /\
  (forall n config, (n <= retries)%nat ->
     (forall i, (i < n)%nat ->
        Home.receivedConfig (backend (attempt + i)) = None) ->
     Home.receivedConfig (backend (attempt + n)) = Some config ->
     effects =
       Spec.failedAttempts n retries delay
         ++ Home.Fetch Home.ApiConfig
         :: (Home.checkJavaVersion java (Home.populate config st)).1 /\
     Spec.fetches Home.ApiCheckJava (Spec.failedAttempts n retries delay)
       = 0%nat).
Proof.
  intros effects.
  assert (Hlast : forall n config, (n <= retries)%nat ->
     (forall i, (i < n)%nat ->
        Home.receivedConfig (backend (attempt + i)) = None) ->
     Home.receivedConfig (backend (attempt + n)) = Some config ->
     effects =
       Spec.failedAttempts n retries delay
         ++ Home.Fetch Home.ApiConfig
         :: (Home.checkJavaVersion java (Home.populate config st)).1).
  { intros n config Hn Hfail Hok. subst effects.
    now rewrite (fetchBackendData_success n attempt retries delay st config). }
  destruct (Spec.succeedsWithin backend attempt retries) eqn:E.
  - destruct (succeedsWithin_true _ _ E) as (n & config & Hn & Hfail & Hok).
    assert (Hj : Spec.fetches Home.ApiCheckJava effects = 1%nat).
    { rewrite (Hlast n config Hn Hfail Hok), fetches_app. simpl.
      rewrite fetches_failedAttempts_java.
      now destruct (fetches_checkJavaVersion (Home.populate config st)) as [-> _]. }
    assert (Hg : Spec.gaveUp effects = false).
    { rewrite (Hlast n config Hn Hfail Hok), gaveUp_app. simpl.
      rewrite gaveUp_failedAttempts.
      now destruct (fetches_checkJavaVersion (Home.populate config st))
        as (_ & _ & -> & _). }
    rewrite Hj, Hg. repeat split; try discriminate; auto.
    + intros _. exists n. now rewrite Hok.
    + intros Hnone. now rewrite (Hnone n Hn) in Hok.
    + apply fetches_failedAttempts_java.
  - pose proof (succeedsWithin_false _ _ E) as Hnone.
    assert (He : effects =
      Spec.failedAttempts retries retries delay
        ++ [Home.Fetch Home.ApiConfig; Home.Console Home.AttemptFailed;
            Home.Console Home.FailedAfterRetries]).
    { subst effects. now rewrite fetchBackendData_failure. }
    assert (Hj : Spec.fetches Home.ApiCheckJava effects = 0%nat).
    { rewrite He, fetches_app, fetches_failedAttempts_java. reflexivity. }
    assert (Hg : Spec.gaveUp effects = true).
    { rewrite He, gaveUp_app, gaveUp_failedAttempts. reflexivity. }
    rewrite Hj, Hg. repeat split; try discriminate; auto.
    + intros (n & Hn & Hs). rewrite (Hnone n Hn) in Hs. now destruct Hs.
    + apply fetches_failedAttempts_java.
Qed.

End Bootstrap.

(** C1, as stated, fails: with the default arguments a run whose attempts
    all fail requests the configuration six times before it gives up. *)
Lemma bootstrap_six_attempts :
  let run :=
    Home.fetchBackendData_default (fun _ => Rejected) Rejected
      Home.initialState in
  Spec.fetches Home.ApiConfig run.1 = 6%nat /\
  Spec.gaveUp run.1 = true /\
  Home.status_text (Home.launcherStatus run.2) = lit "Ошибка API".
Proof. vm_compute. auto. Qed.

Lemma bootstrap_backoff_witness :
  Spec.timeouts
    (Home.fetchBackendData_default (fun _ => Rejected) Rejected
       Home.initialState).1
  = [500; 1000; 2000; 4000; 8000].
Proof.
  exact (proj1 (bootstrap_backoff (fun _ => Rejected) Rejected Home.initialState
                  (fun _ _ => eq_refl))).
Defined.

(** ** The account selected after a fetch *)

Lemma isLastSelected_spec (config : Home.LauncherConfig) (a : Home.Account) :
  Home.isLastSelected config a = true <->
  Home.last_selected_uuid config = Some (Home.uuid a).
Proof.
  unfold Home.isLastSelected, str_eqb.
  destruct (Home.last_selected_uuid config) as [u|].
  - rewrite bool_decide_eq_true. split; congruence.
  - split; discriminate.
Qed.

(** [find] gives the first element that passes the test. *)
Lemma find_first {A : Type} (f : A -> bool) (l : list A) (x : A) :
  find f l = Some x <->
  exists pre post, l = pre ++ x :: post /\ f x = true /\
    Forall (fun y => f y = false) pre.
Proof.
  induction l as [|y l IH]; simpl.
  - split; [discriminate | intros ([|? ?] & ? & ? & _); discriminate].
  - destruct (f y) eqn:E.
    + split.
      * intros [= ->]. exists [], l. auto.
      * intros ([|z pre] & post & Hl & Hx & Hpre).
        -- now injection Hl as -> _.
        -- injection Hl as -> _. apply Forall_inv in Hpre. congruence.
    + rewrite IH. split.
      * intros (pre & post & -> & Hx & Hpre). exists (y :: pre), post. auto.
      * intros ([|z pre] & post & Hl & Hx & Hpre).
        -- injection Hl as -> _. congruence.
        -- injection Hl as -> ->. apply Forall_inv_tail in Hpre. eauto.
Qed.

(** C10: after a run of the bootstrap fetch in which an attempt receives a
    valid configuration, the accounts are the fetched ones and the selected
    account is: none when the list is empty; otherwise the first account of
    the list whose uuid is [last_selected_uuid], when there is one, and the
    first account of the list when there is none.  The selected account is
    always one of the fetched accounts. *)
Theorem selection_after_fetch (backend : nat -> Response Home.ConfigJson)
    (java : Response jsstring) (attempt retries n : nat) (delay : N)
    (st : Home.State) (config : Home.LauncherConfig) :
  (n <= retries)%nat ->
  (forall i, (i < n)%nat ->
     Home.receivedConfig (backend (attempt + i)%nat) = None) ->
  Home.receivedConfig (backend (attempt + n)%nat) = Some config ->
  let st' := (Home.fetchBackendData backend java attempt retries delay st).2 in
  let fetched := Home.config_accounts config in
  Home.accounts st' = fetched /\
  (fetched = [] -> Home.selectedAccount st' = None) /\
  (forall a pre post,
     fetched = pre ++ a :: post ->
     Home.last_selected_uuid config = Some (Home.uuid a) ->
     Forall (fun b => Home.last_selected_uuid config <> Some (Home.uuid b)) pre ->
     Home.selectedAccount st' = Some a) /\
  (forall first rest,
     fetched = first :: rest ->
     Forall (fun b => Home.last_selected_uuid config <> Some (Home.uuid b))
       fetched ->
     Home.selectedAccount st' = Some first) /\
  (forall a, Home.selectedAccount st' = Some a -> a ∈ fetched).
Proof.
  intros Hn Hfail Hok st' fetched. subst st'.
  rewrite (fetchBackendData_success backend java n attempt retries delay st config)
    by assumption.
  cbn [snd].
  assert (Hst : forall s, Home.accounts (Home.checkJavaVersion java s).2
                          = Home.accounts s /\
                          Home.selectedAccount (Home.checkJavaVersion java s).2
                          = Home.selectedAccount s)
    by (intros s; destruct java as [|[] []]; simpl; auto).
  destruct (Hst (Home.populate config st)) as [-> ->]. clear Hst.
  cbn [Home.populate Home.accounts Home.selectedAccount].
  unfold Home.selectionAfterFetch. fold fetched.
  repeat split.
  - now intros ->.
  - intros a pre post Hl Hu Hpre.
    assert (Hf : find (Home.isLastSelected config) fetched = Some a).
    { apply find_first. exists pre, post. repeat split; auto.
      - now apply isLastSelected_spec.
      - eapply Forall_impl; [|exact Hpre]. intros b Hb. simpl in Hb.
        destruct (Home.isLastSelected config b) eqn:E; [|reflexivity].
        now apply isLastSelected_spec in E. }
    rewrite Hf. now destruct fetched.
  - intros first rest Hl Hnone. rewrite Hl.
    destruct (find (Home.isLastSelected config) (first :: rest)) as [a|] eqn:E;
      [|reflexivity].
    apply find_some in E as [Hin E]. apply isLastSelected_spec in E.
    rewrite <- Hl in Hin. rewrite Forall_forall in Hnone.
    now apply Hnone in Hin.
  - intros a. destruct fetched as [|first rest] eqn:Hl; [discriminate|].
    destruct (find (Home.isLastSelected config) (first :: rest)) as [b|] eqn:E;
      cbn [default]; intros [= <-].
    + apply find_some in E as [Hin _]. apply list_elem_of_In. exact Hin.
    + left.
Qed.

Lemma selection_after_fetch_witness :
  let alice := {| Home.uuid := lit "a1"; Home.username := lit "alice";
                  Home.type := Home.ely_by; Home.accessToken := [];
                  Home.clientToken := [] |} in
  let bob := {| Home.uuid := lit "b2"; Home.username := lit "bob";
                Home.type := Home.ely_by; Home.accessToken := [];
                Home.clientToken := [] |} in
  let config := {| Home.config_accounts := [alice; bob];
                   Home.last_selected_uuid := Some (lit "b2");
                   Home.game_settings :=
                     {| Home.server_address := []; Home.enable_logs := false;
                        Home.game_directory := [] |} |} in
  let backend (n : nat) :=
    match n with
    | 2%nat => Answered true (Some (Home.JsonConfig config))
    | _ => Rejected
    end in
  Home.accounts
    (Home.fetchBackendData backend (Answered true None) 0 5 500
       Home.initialState).2
  = [alice; bob].
Proof.
  intros alice bob config backend.
  refine (proj1 (selection_after_fetch backend (Answered true None) 0 5 2 500
                   Home.initialState config _ _ _)).
  - lia.
  - intros [|[|i]] Hi; [reflexivity|reflexivity|lia].
  - reflexivity.
Defined.

(** ** Status polling *)

Lemma polls_app (ps qs : list Home.Poll) (st : Home.State) :
  (Home.polls (ps ++ qs) st).2 = (Home.polls qs (Home.polls ps st).2).2.
Proof.
  revert st; induction ps as [|p ps IH]; intros st; simpl; [reflexivity|].
  destruct (Home.poll p st) as [e st'].
  specialize (IH st').
  destruct (Home.polls (ps ++ qs) st'), (Home.polls ps st'). exact IH.
Qed.

Lemma polls_keep_offline (ps : list Home.Poll) :
  forall st,
  forallb Spec.noServerAnswer ps = true ->
  Home.serverStatus st = Some Home.offline ->
  Home.serverStatus (Home.polls ps st).2 = Some Home.offline.
Proof.
  induction ps as [|p ps IH]; intros st Hps Hst; simpl; [exact Hst|].
  simpl in Hps. apply andb_true_iff in Hps as [Hp Hps].
  destruct (Home.poll p st) as [e st'] eqn:E.
  specialize (IH st' Hps).
  destruct (Home.polls ps st'). apply IH.
  destruct p as [r|r]; simpl in E.
  - unfold Home.pollStatus in E.
    destruct (Home.received r); injection E as _ <-; exact Hst.
  - unfold Home.pollServerStatus in E. simpl in Hp.
    apply bool_decide_eq_true in Hp. rewrite Hp in E.
    now injection E as _ <-.
Qed.

(** C6: a launcher-status poll that fails logs the failure and leaves the
    state, the held launcher status included, as it was; a server-status
    poll that fails logs the failure and sets the server status to exactly
    [{online: false}], whatever it was before; and after a failed
    server-status poll the server status stays [{online: false}] through
    every later poll until a server-status poll is answered, however the
    polls before it went. *)
Theorem failed_polls (st : Home.State) (rl : Response Home.LauncherStatus)
    (rs : Response Home.ServerStatus) :
  Home.received rl = None ->
  Home.received rs = None ->
  Home.pollStatus rl st
    = ([Home.Fetch Home.ApiStatus; Home.Console Home.PollStatusError], st) /\
  Home.launcherStatus (Home.pollStatus rl st).2 = Home.launcherStatus st /\
  (Home.pollServerStatus rs st).1
    = [Home.Fetch Home.ApiServerStatus;
       Home.Console Home.PollServerStatusError] /\
  Home.serverStatus (Home.pollServerStatus rs st).2
    = Some {| Home.online := false; Home.players_online := None;
              Home.players_max := None |} /\
  Home.launcherStatus (Home.pollServerStatus rs st).2
    = Home.launcherStatus st /\
  (forall before later,
     forallb Spec.noServerAnswer later = true ->
     Home.serverStatus
       (Home.polls (before ++ Home.ServerPoll rs :: later) st).2
     = Some Home.offline).
Proof.
  intros Hl Hs. unfold Home.pollStatus, Home.pollServerStatus.
  rewrite Hl, Hs. repeat split.
  intros before later Hlater.
  rewrite polls_app.
  change (Home.ServerPoll rs :: later) with ([Home.ServerPoll rs] ++ later).
  rewrite polls_app. apply polls_keep_offline; [exact Hlater|].
  simpl. unfold Home.pollServerStatus. now rewrite Hs.
Qed.

Lemma failed_polls_witness :
  let online2 := {| Home.online := true; Home.players_online := Some 2;
                    Home.players_max := Some 20 |} in
  Home.serverStatus
    (Home.polls
       ([Home.ServerPoll (Answered true (Some online2))]
          ++ Home.ServerPoll Rejected
          :: [Home.ServerPoll (Answered false None); Home.ServerPoll Rejected])
       Home.initialState).2
  = Some Home.offline.
Proof.
  intros online2.
  exact (proj2 (proj2 (proj2 (proj2 (proj2
           (failed_polls Home.initialState (Answered false None) Rejected
              eq_refl eq_refl)))))
           [Home.ServerPoll (Answered true (Some online2))]
           [Home.ServerPoll (Answered false None); Home.ServerPoll Rejected]
           eq_refl).
Defined.

(** ** Enabling and disabling a mod *)

(** C9: the list [handleToggleMod] sets at once has the length and the order
    of the list before; at every position the mod keeps its filename, name
    and description; a mod with another filename is unchanged as a whole,
    and a mod with the given filename gets the wanted status.  The handler
    sets this list and no other state variable. *)
Theorem optimistic_update_frame (mods : list Settings.Mod) (f : jsstring)
    (enabled' : bool) :
  let mods' := Settings.optimisticMods mods f enabled' in
  length mods' = length mods /\
  (forall i, is_Some (mods' !! i) <-> is_Some (mods !! i)) /\
  (forall i m, mods !! i = Some m ->
     exists m', mods' !! i = Some m' /\
       Settings.filename m' = Settings.filename m /\
       Settings.name m' = Settings.name m /\
       Settings.description m' = Settings.description m /\
       (Settings.filename m <> f -> m' = m) /\
       (Settings.filename m = f ->
        Settings.status m' =
          if enabled' then Settings.enabled else Settings.disabled)) /\
  (forall backend st,
     Settings.accepted backend = true ->
     (Settings.handleToggleMod backend f enabled' st).2 =
     Settings.setMods (Settings.optimisticMods (Settings.mods st) f enabled') st).
Proof.
  intros mods'. subst mods'. unfold Settings.optimisticMods. repeat split.
  - apply length_fmap.
  - rewrite list_lookup_fmap. intros [m' Hm'].
    destruct (mods !! i); [eauto | discriminate].
  - rewrite list_lookup_fmap. intros [m ->]. simpl. eauto.
  - intros i m Hm. rewrite list_lookup_fmap, Hm. simpl.
    eexists; split; [reflexivity|]. unfold str_eqb.
    case_bool_decide; simpl; repeat split; auto; congruence.
  - intros backend st Hok. unfold Settings.handleToggleMod.
    now rewrite Hok.
Qed.

(** C3: when the backend call of [handleToggleMod] fails (the request is
    rejected or answered with a status that is not 2xx), the state after the
    handler is the state before it: the mod list is the list before the
    optimistic update, mod for mod and field for field. *)
Theorem toggle_failure_restores (backend : Response unit) (f : jsstring)
    (enabled' : bool) (st : Settings.State) :
  Settings.accepted backend = false ->
  Settings.mods (Settings.handleToggleMod backend f enabled' st).2
    = Settings.mods st /\
  (Settings.handleToggleMod backend f enabled' st).2 = st /\
  (Settings.handleToggleMod backend f enabled' st).1
    = [Settings.Fetch (Settings.PostModsState f enabled');
       Settings.Toast Settings.ModToggleFailed].
Proof.
  intros Hfail. unfold Settings.handleToggleMod. rewrite Hfail.
  destruct st. repeat split.
Qed.

Lemma toggle_failure_restores_witness :
  let sodium := {| Settings.filename := lit "sodium.jar";
                   Settings.name := lit "Sodium";
                   Settings.description := lit "Rendering engine";
                   Settings.status := Settings.disabled |} in
  let st := {| Settings.mods := [sodium];
               Settings.javaSettings :=
                 {| Settings.path := []; Settings.min_mem := 1024;
                    Settings.max_mem := 4096 |};
               Settings.initialGameSettings :=
                 {| Home.server_address := []; Home.enable_logs := false;
                    Home.game_directory := [] |};
               Settings.gameSettings :=
                 {| Home.server_address := []; Home.enable_logs := false;
                    Home.game_directory := [] |} |} in
  Settings.mods
    (Settings.handleToggleMod (Answered false None) (lit "sodium.jar") true st).2
  = [sodium].
Proof.
  intros sodium st.
  exact (proj1 (toggle_failure_restores (Answered false None)
                  (lit "sodium.jar") true st eq_refl)).
Defined.

(** ** Saving settings *)

Section Save.

Variable reads : nat -> Response (option jsstring).

(** Rounds that are answered without an echo go on to the next round. *)
Lemma confirmationLoop_waiting (written : jsstring) (remaining : nat) :
  forall i,
  (forall j, (j < remaining)%nat ->
     Spec.answersWithoutEcho written (reads (i + j)) = true) ->
  Settings.confirmationLoop reads written i remaining
  = (Spec.waitingRounds remaining, Settings.NotEchoed).
Proof.
  induction remaining as [|r IH]; intros i Hno; [reflexivity|].
  pose proof (Hno 0%nat (Nat.lt_0_succ _)) as H0. rewrite Nat.add_0_r in H0.
  cbn [Settings.confirmationLoop Spec.waitingRounds].
  rewrite (IH (S i)).
  - destruct (reads i) as [|[] [echo|]]; try discriminate; try reflexivity.
    simpl in H0. now destruct (bool_decide (echo = Some written)).
  - intros j Hj. replace (S i + j)%nat with (i + S j)%nat by lia.
    apply Hno. lia.
Qed.

(** The loop up to its first read that is not answered without an echo. *)
Lemma confirmationLoop_until (written : jsstring) (k : nat) :
  forall i remaining,
  (k < remaining)%nat ->
  (forall j, (j < k)%nat ->
     Spec.answersWithoutEcho written (reads (i + j)) = true) ->
  Spec.answersWithoutEcho written (reads (i + k)) = false ->
  Settings.confirmationLoop reads written i remaining
  = (Spec.waitingRounds k ++ [Settings.Fetch Settings.GetConfig],
     match reads (i + k) with
     | Answered true (Some _) => Settings.Echoed
     | _ => Settings.ReadThrew
     end).
Proof.
  induction k as [|k IH]; intros i remaining Hk Hno Hend;
    (destruct remaining as [|r]; [lia|]);
    cbn [Settings.confirmationLoop Spec.waitingRounds].
  - rewrite Nat.add_0_r in *.
    destruct (reads i) as [|[] [echo|]]; try discriminate; try reflexivity.
    simpl in Hend. now destruct (bool_decide (echo = Some written)).
  - pose proof (Hno 0%nat (Nat.lt_0_succ _)) as H0. rewrite Nat.add_0_r in H0.
    rewrite (IH (S i) r).
    + replace (S i + k)%nat with (i + S k)%nat by lia.
      destruct (reads i) as [|[] [echo|]]; try discriminate; try reflexivity.
      simpl in H0. now destruct (bool_decide (echo = Some written)).
    + lia.
    + intros j Hj. replace (S i + j)%nat with (i + S j)%nat by lia.
      apply Hno. lia.
    + now replace (S i + k)%nat with (i + S k)%nat by lia.
Qed.

Lemma configReads_app (a b : list Settings.Effect) :
  Spec.configReads (a ++ b) = (Spec.configReads a + Spec.configReads b)%nat.
Proof.
  induction a as [|x a IH]; simpl; [reflexivity|].
  destruct x as [[]| | |]; simpl; now rewrite IH.
Qed.

Lemma configReads_waitingRounds (n : nat) :
  Spec.configReads (Spec.waitingRounds n) = n.
Proof. induction n; simpl; auto. Qed.

Lemma configReads_saved (key : Settings.SettingsKey)
    (data : Settings.SettingsData) (st : Settings.State) :
  Spec.configReads (Settings.saved key data st) = 0%nat.
Proof.
  unfold Settings.saved. simpl.
  now destruct (Settings.logsChanged key data st).
Qed.

(** C2, as the code has it: for a save of [game_settings] with a non-empty
    [game_directory] whose write is acknowledged with 2xx,
    - when each of the five reads is answered and none echoes the written
      directory, the handler reads the configuration exactly five times,
      sleeps 200 ms after each read, and ends in failure (the failure toast,
      no success toast, [onSettingsChange] not called);
    - when read number [k] (counted from 0, [k < 5]) is the first to echo
      the written directory and the reads before it were answered, the
      handler stops reading after [k + 1] reads and ends in success;
    - when read number [k] is rejected or carries a body that is not JSON,
      the reads before it having been answered without an echo, the handler
      stops after [k + 1] reads and ends in failure. *)
Theorem save_confirmation (write : Response unit) (data : Home.GameSettings)
    (st : Settings.State) :
  Settings.accepted write = true ->
  Home.game_directory data <> [] ->
  let written := Home.game_directory data in
  let effects :=
    Settings.handleSaveSettings write reads Settings.game_settings
      (Settings.GameData data) st in
  let post := Settings.Fetch (Settings.PostConfigGame data) in
  ((forall i, (i < 5)%nat -> Spec.answersWithoutEcho written (reads i) = true) ->
   effects = post :: Spec.waitingRounds 5
               ++ [Settings.Toast Settings.SettingsNotSaved] /\
   Spec.configReads effects = 5%nat /\
   ~ In (Settings.Toast Settings.SettingsSaved) effects /\
   ~ In Settings.OnSettingsChange effects) /\
  (forall k, (k < 5)%nat ->
     (forall i, (i < k)%nat ->
        Spec.answersWithoutEcho written (reads i) = true) ->
     reads k = Answered true (Some (Some written)) ->
     effects = post :: Spec.waitingRounds k
                 ++ Settings.Fetch Settings.GetConfig
                 :: Settings.saved Settings.game_settings
                      (Settings.GameData data) st /\
     Spec.configReads effects = S k /\
     In Settings.OnSettingsChange effects) /\
  (forall k, (k < 5)%nat ->
     (forall i, (i < k)%nat ->
        Spec.answersWithoutEcho written (reads i) = true) ->
     reads k = Rejected \/ reads k = Answered true None ->
     effects = post :: Spec.waitingRounds k
                 ++ [Settings.Fetch Settings.GetConfig;
                     Settings.Toast Settings.SettingsNotSaved] /\
     Spec.configReads effects = S k).
Proof.
  intros Hwrite Hdir written effects post. subst effects post.
  unfold Settings.handleSaveSettings. rewrite Hwrite.
  assert (Hconfirm : Settings.directoryToConfirm Settings.game_settings
                       (Settings.GameData data) = Some written).
  { unfold Settings.directoryToConfirm. subst written. simpl.
    now destruct (Home.game_directory data). }
  rewrite Hconfirm. split; [|split].
  - intros Hno. rewrite (confirmationLoop_waiting written 5 0) by exact Hno.
    split; [reflexivity|]. split; [reflexivity|].
    simpl. intuition discriminate.
  - intros k Hk Hno Hecho.
    rewrite (confirmationLoop_until written k 0 5 Hk Hno); simpl (0 + k)%nat.
    + rewrite Hecho. rewrite <- app_assoc. simpl.
      split; [reflexivity|]. split.
      * cbn [Spec.configReads].
        rewrite configReads_app, configReads_waitingRounds.
        cbn [Spec.configReads]. rewrite configReads_saved. lia.
      * right. apply in_or_app. right. right.
        unfold Settings.saved. right. apply in_or_app. right. now left.
    + rewrite Hecho. simpl. now rewrite bool_decide_eq_true_2.
  - intros k Hk Hno Hthrow.
    rewrite (confirmationLoop_until written k 0 5 Hk Hno); simpl (0 + k)%nat.
    + assert (Hc : match reads k with
                   | Answered true (Some _) => Settings.Echoed
                   | _ => Settings.ReadThrew
                   end = Settings.ReadThrew)
        by (destruct Hthrow as [-> | ->]; reflexivity).
      rewrite Hc, <- app_assoc. simpl. split; [reflexivity|].
      rewrite configReads_app, configReads_waitingRounds. simpl. lia.
    + destruct Hthrow as [-> | ->]; reflexivity.
Qed.

End Save.

(** C2, as stated, fails: a save whose first read is rejected ends in
    failure after one read, and a save of game settings with an empty
    [game_directory] ends in success without reading at all, though in both
    the write is acknowledged and the backend never echoes the directory. *)
Lemma save_without_five_reads :
  let chosen := {| Home.server_address := lit "play.kristory.ru";
                   Home.enable_logs := false;
                   Home.game_directory := lit "D:\Games\Kristory Client" |} in
  let unset := {| Home.server_address := lit "play.kristory.ru";
                  Home.enable_logs := false;
                  Home.game_directory := [] |} in
  Settings.handleSaveSettings (Answered true None) (fun _ => Rejected)
    Settings.game_settings (Settings.GameData chosen) Settings.initialState
  = [Settings.Fetch (Settings.PostConfigGame chosen);
     Settings.Fetch Settings.GetConfig;
     Settings.Toast Settings.SettingsNotSaved] /\
  Settings.handleSaveSettings (Answered true None)
    (fun _ => Answered true (Some None))
    Settings.game_settings (Settings.GameData unset) Settings.initialState
  = [Settings.Fetch (Settings.PostConfigGame unset);
     Settings.Toast Settings.SettingsSaved;
     Settings.OnSettingsChange].
Proof. vm_compute. auto. Qed.


Lemma save_confirmation_witness :
  let chosen := {| Home.server_address := lit "play.kristory.ru";
                   Home.enable_logs := false;
                   Home.game_directory := lit "D:\Games\Kristory Client" |} in
  Spec.configReads
    (Settings.handleSaveSettings (Answered true None)
       (fun _ => Answered true (Some (Some (lit "D:\Games"))))
       Settings.game_settings (Settings.GameData chosen) Settings.initialState)
  = 5%nat.
Proof.
  intros chosen.
  refine (proj1 (proj2 (proj1
           (save_confirmation
              (fun _ => Answered true (Some (Some (lit "D:\Games"))))
              (Answered true None) chosen Settings.initialState _ _)
           _))).
  - reflexivity.
  - vm_compute. discriminate.
  - intros i Hi. vm_compute. reflexivity.
Defined.

(** ** The game directory derived from a picked folder *)

Lemma matchIgnoreCase_spec (p : jsstring) :
  forall s r,
  matchIgnoreCase s p = Some r <->
  exists w, s = w ++ r /\ map canonicalize w = map canonicalize p.
Proof.
  induction p as [|c p IH]; intros s r; simpl.
  - split.
    + intros [= ->]. now exists [].
    + intros (w & -> & Hw). apply map_eq_nil in Hw. now subst w.
  - destruct s as [|d s].
    + split; [discriminate|]. intros ([|? ?] & ? & ?); discriminate.
    + destruct (canonicalize d =? canonicalize c) eqn:E.
      * apply N.eqb_eq in E. rewrite IH. split.
        -- intros (w & -> & Hw). exists (d :: w). simpl. now rewrite E, Hw.
        -- intros ([|x w] & Hs & Hw); [discriminate|].
           injection Hs as -> ->. injection Hw as _ Hw. eauto.
      * apply N.eqb_neq in E. split; [discriminate|].
        intros ([|x w] & Hs & Hw); [discriminate|].
        injection Hs as -> ->. injection Hw as Hx _. contradiction.
Qed.

Lemma testIgnoreCase_spec (s p : jsstring) :
  testIgnoreCase s p = true <-> Spec.ContainsIgnoringCase s p.
Proof.
  unfold Spec.ContainsIgnoringCase. induction s as [|c s IH]; simpl.
  - rewrite orb_false_r, bool_decide_eq_true. split.
    + intros [r Hr]. apply matchIgnoreCase_spec in Hr as (w & Hs & Hw).
      now exists [], w, r.
    + intros (a & w & b & Hs & Hw).
      destruct a; [|discriminate]. exists b. apply matchIgnoreCase_spec. eauto.
  - rewrite orb_true_iff, bool_decide_eq_true, IH. split.
    + intros [[r Hr] | (a & w & b & -> & Hw)].
      * apply matchIgnoreCase_spec in Hr as (w & Hs & Hw). now exists [], w, r.
      * now exists (c :: a), w, b.
    + intros ([|x a] & w & b & Hs & Hw).
      * left. exists b. apply matchIgnoreCase_spec. eauto.
      * right. injection Hs as -> ->. eauto.
Qed.

Lemma testIgnoreCase_app_l (a s p : jsstring) :
  testIgnoreCase s p = true -> testIgnoreCase (a ++ s) p = true.
Proof.
  rewrite !testIgnoreCase_spec. intros (a' & w & b & -> & Hw).
  exists (a ++ a'), w, b. now rewrite <- app_assoc.
Qed.

Lemma matchIgnoreCase_canon (p p' : jsstring) :
  map canonicalize p = map canonicalize p' ->
  forall s, matchIgnoreCase s p = matchIgnoreCase s p'.
Proof.
  revert p'; induction p as [|c p IH]; intros [|c' p'] H s;
    try discriminate; [reflexivity|].
  injection H as Hc Hp. destruct s as [|d s]; simpl; [reflexivity|].
  now rewrite Hc, (IH p' Hp).
Qed.

Lemma allSeparators_app (a b : jsstring) :
  allSeparators (a ++ b) = allSeparators a && allSeparators b.
Proof.
  induction a as [|c a IH]; simpl; [reflexivity|].
  now rewrite IH, andb_assoc.
Qed.

Lemma strip_app (a b : jsstring) :
  allSeparators b = false ->
  stripTrailingSeparators (a ++ b) = a ++ stripTrailingSeparators b.
Proof.
  intros Hb. induction a as [|c a IH]; [reflexivity|].
  cbn [app stripTrailingSeparators allSeparators].
  now rewrite allSeparators_app, Hb, andb_false_r, andb_false_r, IH.
Qed.

Lemma allSeparators_strip (s : jsstring) :
  allSeparators s = false -> allSeparators (stripTrailingSeparators s) = false.
Proof.
  induction s as [|c s IH]; [discriminate|]. intros H.
  cbn [stripTrailingSeparators]. rewrite H. simpl in *.
  destruct (isSeparator c); [|reflexivity]. simpl in *. auto.
Qed.

Lemma strip_idempotent (s : jsstring) :
  stripTrailingSeparators (stripTrailingSeparators s)
  = stripTrailingSeparators s.
Proof.
  induction s as [|c s IH]; [reflexivity|].
  cbn [stripTrailingSeparators].
  destruct (allSeparators (c :: s)) eqn:E; [reflexivity|].
  pose proof (allSeparators_strip _ E) as E'.
  cbn [stripTrailingSeparators] in E'. rewrite E in E'.
  cbn [stripTrailingSeparators]. now rewrite E', IH.
Qed.

Lemma endsWithSeparator_snoc (q : jsstring) (x : N) :
  Spec.endsWithSeparator (q ++ [x]) = isSeparator x.
Proof.
  unfold Spec.endsWithSeparator, endsWith, isSeparator.
  rewrite rev_unit. simpl. now rewrite !andb_true_r.
Qed.

Lemma strip_no_trailing (p : jsstring) :
  Spec.endsWithSeparator p = false -> stripTrailingSeparators p = p.
Proof.
  destruct p as [|x q _] using rev_ind; [reflexivity|].
  rewrite endsWithSeparator_snoc. intros Hx.
  rewrite strip_app; simpl; now rewrite Hx.
Qed.

Lemma endsWithSeparator_cons (c : N) (l : jsstring) :
  l <> [] -> Spec.endsWithSeparator (c :: l) = Spec.endsWithSeparator l.
Proof.
  destruct l as [|x q _] using rev_ind; [congruence|]. intros _.
  now rewrite app_comm_cons, !endsWithSeparator_snoc.
Qed.

(** What is stripped is a run of separators that ends the string, and what
    is kept does not end in a separator. *)
Lemma strip_spec (s : jsstring) :
  exists t, s = stripTrailingSeparators s ++ t /\ allSeparators t = true /\
    Spec.endsWithSeparator (stripTrailingSeparators s) = false.
Proof.
  induction s as [|c s (t & Hs & Ht & Hend)]; [now exists []|].
  cbn [stripTrailingSeparators].
  destruct (allSeparators (c :: s)) eqn:E; [now exists (c :: s)|].
  exists t. split; [simpl; now rewrite <- Hs|]. split; [exact Ht|].
  destruct (stripTrailingSeparators s) as [|x k] eqn:Ek.
  - simpl in Hs. subst t. simpl in E. rewrite Ht, andb_true_r in E.
    rewrite <- E. exact (endsWithSeparator_snoc [] c).
  - now rewrite endsWithSeparator_cons.
Qed.

Lemma name_folds :
  map canonicalize (lit "Kristory Client")
  = map canonicalize (lit "kristory client").
Proof. vm_compute. reflexivity. Qed.

Lemma nameThenEnd_contains (t : jsstring) :
  Settings.nameThenEnd t = true ->
  testIgnoreCase t (lit "kristory client") = true.
Proof.
  unfold Settings.nameThenEnd.
  rewrite (matchIgnoreCase_canon _ _ name_folds t).
  generalize (lit "kristory client"). intros p Ht.
  destruct (matchIgnoreCase t p) as [r|] eqn:E; [|discriminate].
  apply matchIgnoreCase_spec in E as (w & -> & Hw).
  apply testIgnoreCase_spec. now exists [], w, r.
Qed.

Lemma hasClientFolder_contains (s : jsstring) (atStart : bool) :
  Settings.matchesFrom atStart s = true ->
  testIgnoreCase s (lit "kristory client") = true.
Proof.
  generalize nameThenEnd_contains. generalize (lit "kristory client").
  intros p Hname.
  revert atStart; induction s as [|c s IH]; intros atStart H.
  - cbn [Settings.matchesFrom] in H. unfold Settings.matchesHere in H.
    rewrite orb_false_r, orb_false_l in H.
    apply andb_true_iff in H as [_ H]. now apply Hname.
  - cbn [Settings.matchesFrom] in H. unfold Settings.matchesHere in H.
    apply orb_true_iff in H as [H|H].
    + apply orb_true_iff in H as [H|H].
      * apply andb_true_iff in H as [_ H]. apply Hname in H.
        cbn [testIgnoreCase]. rewrite H. apply orb_true_r.
      * apply andb_true_iff in H as [_ H]. now apply Hname.
    + apply IH in H. cbn [testIgnoreCase]. rewrite H. apply orb_true_r.
Qed.

Lemma hasClientFolder_appended (a : jsstring) (c : N) (atStart : bool) :
  isSeparator c = true ->
  Settings.matchesFrom atStart (a ++ c :: lit "Kristory Client") = true.
Proof.
  intros Hc. revert atStart; induction a as [|x a IH]; intros atStart.
  - cbn [app Settings.matchesFrom]. unfold Settings.matchesHere. rewrite Hc.
    replace (Settings.nameThenEnd (lit "Kristory Client")) with true
      by (vm_compute; reflexivity).
    reflexivity.
  - cbn [app Settings.matchesFrom]. rewrite IH. apply orb_true_r.
Qed.

Lemma nameThenEnd_spec (s : jsstring) :
  Settings.nameThenEnd s = true <->
  exists w b, s = w ++ b /\
    map canonicalize w = map canonicalize (lit "Kristory Client") /\
    Spec.EndsComponent b.
Proof.
  unfold Settings.nameThenEnd, Spec.EndsComponent.
  generalize (lit "Kristory Client"). intros p. split.
  - destruct (matchIgnoreCase s p) as [r|] eqn:E; [|discriminate].
    apply matchIgnoreCase_spec in E as (w & -> & Hw).
    intros H. exists w, r. repeat split; auto.
    destruct r as [|c r]; [now left | right; eauto].
  - intros (w & b & -> & Hw & Hb).
    assert (E : matchIgnoreCase (w ++ b) p = Some b)
      by (apply matchIgnoreCase_spec; eauto).
    rewrite E. destruct Hb as [-> | (c & b' & -> & Hc)]; auto.
Qed.

(** The test of [handleSelectGameDirectory] finds the name as a whole
    component of the path. *)
Lemma matchesFrom_spec (s : jsstring) :
  forall atStart,
  Settings.matchesFrom atStart s = true <->
  exists a w b, s = a ++ w ++ b /\
    map canonicalize w = map canonicalize (lit "Kristory Client") /\
    Spec.EndsComponent b /\
    ((atStart = true /\ a = []) \/
     exists a' c, a = a' ++ [c] /\ isSeparator c = true).
Proof.
  induction s as [|c s IH]; intros atStart;
    cbn [Settings.matchesFrom]; unfold Settings.matchesHere.
  - rewrite orb_false_r, orb_false_l, andb_true_iff, nameThenEnd_spec. split.
    + intros (-> & w & b & Hs & Hw & Hb). exists [], w, b.
      repeat split; auto.
    + intros (a & w & b & Hs & Hw & Hb & Ha).
      destruct a as [|? ?]; [|discriminate].
      destruct Ha as [[-> _] | (a' & x & Ha & _)].
      * split; [reflexivity|]. exists w, b. repeat split; auto.
      * now destruct a'.
  - rewrite !orb_true_iff, !andb_true_iff, !nameThenEnd_spec, IH. split.
    + intros [[(Hc & w & b & -> & Hw & Hb) | (-> & w & b & Hs & Hw & Hb)]
             | (a & w & b & -> & Hw & Hb & Ha)].
      * exists [c], w, b. repeat split; auto. right. now exists [], c.
      * exists [], w, b. repeat split; auto.
      * destruct Ha as [[? _] | (a' & x & -> & Hx)]; [discriminate|].
        exists (c :: a' ++ [x]), w, b. repeat split; auto.
        right. now exists (c :: a'), x.
    + intros (a & w & b & Hs & Hw & Hb & [[-> ->] | (a' & x & -> & Hx)]).
      * left. right. split; [reflexivity|]. exists w, b. repeat split; auto.
      * destruct a' as [|y a'].
        -- injection Hs as -> ->. left. left. split; [exact Hx|].
           exists w, b. repeat split; auto.
        -- injection Hs as -> ->. right. exists (a' ++ [x]), w, b.
           repeat split; auto. right. eauto.
Qed.

Lemma hasClientFolder_spec (path : jsstring) :
  Settings.hasClientFolder path = true <->
  Spec.HasComponentIgnoringCase path (lit "Kristory Client").
Proof.
  unfold Settings.hasClientFolder, Spec.HasComponentIgnoringCase,
    Spec.StartsComponent.
  rewrite matchesFrom_spec. split.
  - intros (a & w & b & Hs & Hw & Hb & Ha). exists a, w, b.
    repeat split; auto. destruct Ha as [[_ ->] | Ha]; [now left | now right].
  - intros (a & w & b & Hs & Hw & Ha & Hb). exists a, w, b.
    repeat split; auto. destruct Ha as [-> | Ha]; auto.
Qed.

Lemma separatorOf_cases (p : jsstring) :
  Spec.separatorOf p = [92] \/ Spec.separatorOf p = [47].
Proof. unfold Spec.separatorOf. destruct (includes p _); auto. Qed.

Lemma home_finalPath_cases (path : jsstring) :
  Home.finalPath path =
  let kept := stripTrailingSeparators path in
  if testIgnoreCase kept (lit "kristory client") then kept
  else kept ++ Spec.separatorOf kept ++ lit "Kristory Client".
Proof.
  unfold Home.finalPath, Spec.separatorOf. cbv zeta.
  now destruct (testIgnoreCase _ _).
Qed.

Lemma settings_finalPath_cases (path : jsstring) :
  Settings.finalPath path =
  if Settings.hasClientFolder path then path
  else stripTrailingSeparators path
         ++ (if Spec.endsWithSeparator path then [] else Spec.separatorOf path)
         ++ lit "Kristory Client".
Proof.
  unfold Settings.finalPath, Spec.separatorOf, Spec.endsWithSeparator.
  now destruct (Settings.hasClientFolder _).
Qed.

Lemma home_finalPath_contains (path : jsstring) :
  testIgnoreCase (Home.finalPath path) (lit "kristory client") = true.
Proof.
  rewrite home_finalPath_cases. cbv zeta.
  destruct (testIgnoreCase (stripTrailingSeparators path) _) eqn:E; [exact E|].
  do 2 apply testIgnoreCase_app_l. vm_compute. reflexivity.
Qed.

Lemma home_finalPath_stripped (path : jsstring) :
  stripTrailingSeparators (Home.finalPath path) = Home.finalPath path.
Proof.
  rewrite home_finalPath_cases. cbv zeta.
  destruct (testIgnoreCase (stripTrailingSeparators path) _).
  - apply strip_idempotent.
  - destruct (separatorOf_cases (stripTrailingSeparators path)) as [-> | ->];
      (rewrite strip_app; [f_equal|]; vm_compute; reflexivity).
Qed.

(** C8, as the code has it.  [handleDownloadClick] strips the trailing
    separators of the picked path and keeps the result when it contains
    "kristory client" in any letter case, anywhere; otherwise it appends a
    separator (a backslash when the stripped path contains one, a slash
    otherwise) and "Kristory Client".  Its result always contains the name
    up to letter case, and deriving from its result changes nothing.
    [handleSelectGameDirectory] keeps the picked path as it is when a
    component of it is "Kristory Client" in any letter case; for a path that
    does not end in a separator it otherwise appends a separator (a
    backslash when the path contains one, a slash otherwise) and
    "Kristory Client", its result has the component, deriving from its
    result changes nothing, and it agrees with [handleDownloadClick] when
    the name occurs in the path as a whole component or not at all. *)
Theorem game_directory_derivation (path : jsstring) :
  let kept := stripTrailingSeparators path in
  let name := lit "Kristory Client" in
  ((testIgnoreCase kept (lit "kristory client") = true ->
    Home.finalPath path = kept) /\
   (testIgnoreCase kept (lit "kristory client") = false ->
    Home.finalPath path = kept ++ Spec.separatorOf kept ++ name) /\
   Spec.ContainsIgnoringCase (Home.finalPath path) name /\
   Home.finalPath (Home.finalPath path) = Home.finalPath path) /\
  (Settings.hasClientFolder path = true ->
   Settings.finalPath path = path /\
   Spec.ContainsIgnoringCase (Settings.finalPath path) name /\
   Settings.finalPath (Settings.finalPath path) = Settings.finalPath path) /\
  (Spec.endsWithSeparator path = false ->
   (Settings.hasClientFolder path = false ->
    Settings.finalPath path = path ++ Spec.separatorOf path ++ name) /\
   Settings.hasClientFolder (Settings.finalPath path) = true /\
   Spec.HasComponentIgnoringCase (Settings.finalPath path) name /\
   Settings.finalPath (Settings.finalPath path) = Settings.finalPath path /\
   (Settings.hasClientFolder path
      = testIgnoreCase path (lit "kristory client") ->
    Settings.finalPath path = Home.finalPath path)).
Proof.
  intros kept name.
  assert (Hfold : forall s,
            testIgnoreCase s (lit "kristory client") = true ->
            Spec.ContainsIgnoringCase s name).
  { intros s (a & w & b & -> & Hw)%testIgnoreCase_spec.
    exists a, w, b. split; [reflexivity|]. rewrite Hw. vm_compute. reflexivity. }
  assert (Hkeep : forall s, Settings.hasClientFolder s = true ->
                            Settings.finalPath s = s).
  { intros s Hs. rewrite settings_finalPath_cases. now rewrite Hs. }
  split; [|split].
  - repeat split.
    + intros H. rewrite home_finalPath_cases. cbv zeta. fold kept.
      now rewrite H.
    + intros H. rewrite home_finalPath_cases. cbv zeta. fold kept.
      now rewrite H.
    + apply Hfold, home_finalPath_contains.
    + rewrite (home_finalPath_cases (Home.finalPath path)). cbv zeta.
      rewrite home_finalPath_stripped. now rewrite home_finalPath_contains.
  - intros Hhas. rewrite !(Hkeep path Hhas). repeat split.
    apply Hfold. now apply (hasClientFolder_contains path true).
  - intros Hend.
    assert (Hcase : Settings.hasClientFolder path = false ->
              Settings.finalPath path = path ++ Spec.separatorOf path ++ name).
    { intros H. rewrite settings_finalPath_cases, H, Hend.
      now rewrite strip_no_trailing. }
    assert (Hres : Settings.hasClientFolder (Settings.finalPath path) = true).
    { destruct (Settings.hasClientFolder path) eqn:H.
      - now rewrite Hkeep.
      - rewrite (Hcase eq_refl). unfold Settings.hasClientFolder.
        destruct (separatorOf_cases path) as [-> | ->];
          now apply hasClientFolder_appended. }
    repeat split.
    + exact Hcase.
    + exact Hres.
    + now apply hasClientFolder_spec.
    + now apply Hkeep.
    + intros Hagree. rewrite home_finalPath_cases. cbv zeta.
      rewrite (strip_no_trailing path Hend), <- Hagree.
      destruct (Settings.hasClientFolder path) eqn:H.
      * now apply Hkeep.
      * now apply Hcase.
Qed.

(** C8, as stated, fails: for a folder whose name only contains the words,
    [handleDownloadClick] keeps the path and [handleSelectGameDirectory]
    appends the sub-folder. *)
Lemma derivations_disagree :
  let path := lit "/home/user/kristory client backup" in
  Home.finalPath path = path /\
  Settings.finalPath path = path ++ lit "/Kristory Client".
Proof. vm_compute. auto. Qed.

(** What [handleSelectGameDirectory] makes of a path that ends in a
    separator: the name is glued to the last component, and deriving again
    appends the sub-folder to that. *)
Example select_trailing_separator :
  Settings.finalPath (lit "C:\Games\") = lit "C:\GamesKristory Client" /\
  Home.finalPath (lit "C:\Games\") = lit "C:\Games\Kristory Client" /\
  Settings.finalPath (lit "C:\GamesKristory Client")
  = lit "C:\GamesKristory Client\Kristory Client".
Proof. vm_compute. auto. Qed.

(** From here on literals are compared, not evaluated, unless a proof
    computes. *)
#[local] Opaque lit.

(** ** Update notifications *)

Lemma onUpdateEvents_app (a b : list Page.UpdateEvent) (st : Page.UpdateState) :
  Page.onUpdateEvents (a ++ b) st
  = Page.onUpdateEvents b (Page.onUpdateEvents a st).
Proof. apply fold_left_app. Qed.

Lemma isUpdateReady_events (events : list Page.UpdateEvent) :
  forall st,
  Page.isUpdateReady (Page.onUpdateEvents events st) = true <->
  Page.isUpdateReady st = true \/ In Page.OnUpdateDownloaded events.
Proof.
  induction events as [|e events IH]; intros st.
  - simpl. tauto.
  - change (Page.onUpdateEvents (e :: events) st)
      with (Page.onUpdateEvents events (Page.onUpdateEvent e st)).
    rewrite IH. destruct e as [m|]; simpl.
    + split; [intros [H|H]; auto | intros [H|[H|H]]; auto; discriminate].
    + tauto.
Qed.

(** X1: the footer offers the restart exactly when the update was ready
    before or the downloaded signal is among the events that arrived; no
    later event takes the offer back.  As long as it is not offered, the
    footer shows the text of the last message. *)
Theorem update_ready_is_kept (events : list Page.UpdateEvent)
    (st : Page.UpdateState) :
  (Page.footer (Page.onUpdateEvents events st) = Page.RestartButton <->
   Page.isUpdateReady st = true \/ In Page.OnUpdateDownloaded events) /\
  (forall later,
     Page.footer (Page.onUpdateEvents events st) = Page.RestartButton ->
     Page.footer (Page.onUpdateEvents (events ++ later) st)
     = Page.RestartButton) /\
  (forall message,
     Page.isUpdateReady st = false ->
     ~ In Page.OnUpdateDownloaded events ->
     Page.footer
       (Page.onUpdateEvents (events ++ [Page.OnUpdateMessage message]) st)
     = Page.UpdateText message).
Proof.
  assert (Hfooter : forall s, Page.footer s = Page.RestartButton <->
                              Page.isUpdateReady s = true).
  { intros s. unfold Page.footer. destruct (Page.isUpdateReady s);
      split; (reflexivity || discriminate). }
  split; [|split].
  - rewrite Hfooter. apply isUpdateReady_events.
  - intros later. rewrite !Hfooter, !isUpdateReady_events, in_app_iff. tauto.
  - intros message Hst Hno. rewrite onUpdateEvents_app. simpl.
    unfold Page.footer. simpl.
    destruct (Page.isUpdateReady (Page.onUpdateEvents events st)) eqn:E;
      [|reflexivity].
    apply isUpdateReady_events in E as [E|E]; [congruence | contradiction].
Qed.

(** ** The game-launched flag *)

(** X2: a status text that begins with "Игра запущена" sets the flag (and
    minimizes the window when that is possible), even when it also contains
    a phrase that ends a session; a set flag is cleared by a text exactly
    when the text does not begin so and contains "Игра закрыта" or
    "Процесс остановлен"; and a flag once set stays set through any run of
    status texts none of which contains either phrase. *)
Theorem game_flag_is_kept (canMinimize : bool) :
  (forall text flag,
     startsWith text (lit "Игра запущена") = true ->
     Page.gameLaunchEffect canMinimize text flag = (canMinimize, true)) /\
  (forall text,
     (Page.gameLaunchEffect canMinimize text true).2 = false <->
     startsWith text (lit "Игра запущена") = false /\
     Observe.keepsSession text = false) /\
  (forall texts,
     forallb Observe.keepsSession texts = true ->
     Page.gameLaunchEffects canMinimize texts true = true).
Proof.
  unfold Page.gameLaunchEffects, Page.gameLaunchEffect, Observe.keepsSession.
  generalize (lit "Игра запущена") (lit "Игра закрыта")
    (lit "Процесс остановлен").
  intros p1 p2 p3. split; [|split].
  - intros text flag H. now rewrite H.
  - intros text. destruct (startsWith text p1); simpl; [intuition discriminate|].
    destruct (includes text p2 || includes text p3); simpl;
      intuition discriminate.
  - intros texts. induction texts as [|t texts IH]; [reflexivity|]. simpl.
    intros [Ht Hts]%andb_true_iff. apply negb_true_iff in Ht.
    destruct (startsWith t p1); simpl; [now apply IH|].
    rewrite Ht. now apply IH.
Qed.

(** ** The action button and the requests of the main page *)

Lemma handlePlayClick_sends (thrown : jsstring)
    (launch : Response (option jsstring)) (st : Home.State) (r : Page.Request) :
  In (Page.Send r) (Page.handlePlayClick thrown launch st) <->
  Home.is_processing (Home.launcherStatus st) = false /\
  exists account, Home.selectedAccount st = Some account /\
                  r = Page.PostLaunch (Home.uuid account).
Proof.
  unfold Page.handlePlayClick.
  generalize (lit "Ошибка") (lit "Пожалуйста, выберите аккаунт.")
    (lit "Ошибка запуска") (lit "Failed to start launch process").
  intros t1 t2 t3 t4.
  destruct (Home.selectedAccount st) as [account|].
  - destruct (Home.is_processing (Home.launcherStatus st)).
    + split; [intros [] | intros [? _]; discriminate].
    + split.
      * intros [H|H].
        -- injection H as <-. eauto.
        -- destruct launch as [|[] [m|]]; simpl in H;
             repeat (destruct H as [H|H]; [discriminate|]); destruct H.
      * intros (_ & a & [= <-] & ->). now left.
  - split.
    + intros [H|[]]. discriminate.
    + intros (_ & a & H & _). discriminate.
Qed.

(** X3: [handlePlayClick] sends a launch request exactly when the launcher
    is not processing and an account is selected, and the request carries
    that account's uuid; it sends no other request; without a selected
    account it only asks for one.  The action button runs [handlePlayClick]
    exactly when the launcher is not processing, the game is installed, an
    account is selected and the game has not been launched. *)
Theorem launch_request (thrown : jsstring) (launch : Response (option jsstring))
    (st : Home.State) (gameHasLaunched : bool) :
  let actions := Page.handlePlayClick thrown launch st in
  (forall r,
     In (Page.Send r) actions <->
     Home.is_processing (Home.launcherStatus st) = false /\
     exists account, Home.selectedAccount st = Some account /\
                     r = Page.PostLaunch (Home.uuid account)) /\
  (Home.selectedAccount st = None ->
   actions = [Page.Toast {| Page.title := lit "Ошибка";
                            Page.description := lit "Пожалуйста, выберите аккаунт.";
                            Page.destructive := true |}]) /\
  (Page.clicked (Page.renderActionButton st gameHasLaunched)
     = Some Page.HandlePlayClick <->
   Home.is_processing (Home.launcherStatus st) = false /\
   Home.is_game_installed (Home.launcherStatus st) = true /\
   Home.selectedAccount st <> None /\
   gameHasLaunched = false).
Proof.
  intros actions. subst actions. split; [|split].
  - intros r. apply handlePlayClick_sends.
  - intros H. unfold Page.handlePlayClick. now rewrite H.
  - unfold Page.renderActionButton, Page.noAccount.
    destruct (Home.is_processing (Home.launcherStatus st)); simpl.
    { split; [discriminate | intros [? _]; discriminate]. }
    destruct (Home.is_game_installed (Home.launcherStatus st)); simpl.
    + destruct (Home.selectedAccount st) as [a|], gameHasLaunched; simpl;
        split; try discriminate; try (intros (_ & _ & ? & ?); congruence).
      intros _. repeat split. discriminate.
    + destruct (Page.isGameDirSet st), (Home.selectedAccount st); simpl;
        split; try discriminate; intros (_ & ? & _); discriminate.
Qed.

(** The awaited call is the first attempt of the run from the default
    arguments; when it fails, the run goes on from the timer with 4 retries
    and 1000 ms. *)
Lemma fetchBackendData_call_first (backend : nat -> Response Home.ConfigJson)
    (java : Response jsstring) (st : Home.State) :
  Home.fetchBackendData_default backend java st =
  match Home.receivedConfig (backend 0%nat) with
  | Some _ => Page.fetchBackendData_call (backend 0%nat) java st
  | None =>
    let '(effects, st') := Home.fetchBackendData backend java 1 4 1000 st in
    ((Page.fetchBackendData_call (backend 0%nat) java st).1 ++ effects, st')
  end.
Proof.
  unfold Home.fetchBackendData_default, Page.fetchBackendData_call.
  cbn [Home.fetchBackendData].
  destruct (Home.receivedConfig (backend 0%nat)); [reflexivity|].
  change (500 * 2) with 1000.
  now destruct (Home.fetchBackendData backend java 1 4 1000 st).
Qed.

Lemma startVerificationProcess_sends (thrown : jsstring)
    (verify : Response (option jsstring)) (st : Home.State) (r : Page.Request) :
  In (Page.Send r) (Page.startVerificationProcess thrown verify st) <->
  Home.is_processing (Home.launcherStatus st) = false /\
  r = Page.PostVerifyFiles.
Proof.
  unfold Page.startVerificationProcess.
  destruct (Home.is_processing (Home.launcherStatus st)).
  - split; [intros [] | intros [? _]; discriminate].
  - split.
    + intros [H|H]; [now injection H as <-|].
      destruct verify as [|[] [m|]]; simpl in H;
        repeat (destruct H as [H|H]; [discriminate|]); destruct H.
    + intros [_ ->]. now left.
Qed.

Lemma bootstrap_effects_send_nothing (effects : list Home.Effect)
    (r : Page.Request) :
  ~ In (Page.Send r) (map Page.Bootstrap effects).
Proof. induction effects; simpl; [tauto|]. intros [H|H]; [discriminate|auto]. Qed.

Lemma contains_nonempty (s p : jsstring) :
  p <> [] -> Spec.ContainsIgnoringCase s p -> s <> [].
Proof.
  intros Hp (a & w & b & -> & Hw) H.
  apply app_eq_nil in H as [_ H]. apply app_eq_nil in H as [-> _].
  destruct p; [congruence | discriminate].
Qed.

Lemma name_nonempty : lit "Kristory Client" <> [].
Proof. vm_compute. discriminate. Qed.

Lemma folded_name_contains (s : jsstring) :
  testIgnoreCase s (lit "kristory client") = true ->
  Spec.ContainsIgnoringCase s (lit "Kristory Client").
Proof.
  intros (a & w & b & -> & Hw)%testIgnoreCase_spec.
  exists a, w, b. split; [reflexivity|]. now rewrite name_folds.
Qed.

(** X4: every request [handleDownloadClick] sends for the game directory
    carries the directory derived from a non-empty answer of the picker,
    which is not empty and contains "Kristory Client" up to letter case; the
    handler asks for the verification of the files exactly when an account
    is selected, the picker is available and answered with a non-empty path,
    the backend accepted the directory and the launcher was not processing;
    and when the backend did not accept the directory, the handler neither
    refetches the configuration nor changes the state. *)
Theorem download_click (electronAPI : bool) (picked : option jsstring)
    (thrown : jsstring) (save : Response unit)
    (answer : Response Home.ConfigJson) (java : Response jsstring)
    (verify : Response (option jsstring)) (st : Home.State) :
  let run :=
    Page.handleDownloadClick electronAPI picked thrown save answer java verify
      st in
  (forall d,
     In (Page.Send (Page.PostGameDirectory d)) run.1 ->
     (exists c path, picked = Some (c :: path) /\
                     d = Home.finalPath (c :: path)) /\
     d <> [] /\
     Spec.ContainsIgnoringCase d (lit "Kristory Client")) /\
  (In (Page.Send Page.PostVerifyFiles) run.1 <->
   Home.selectedAccount st <> None /\
   electronAPI = true /\
   (exists c path, picked = Some (c :: path)) /\
   Settings.accepted save = true /\
   Home.is_processing (Home.launcherStatus st) = false) /\
  (Settings.accepted save = false ->
   run.2 = st /\ forall e, ~ In (Page.Bootstrap e) run.1).
Proof.
  intros run. subst run. unfold Page.handleDownloadClick.
  assert (Hdir : forall c path,
            Home.finalPath (c :: path) <> [] /\
            Spec.ContainsIgnoringCase (Home.finalPath (c :: path))
              (lit "Kristory Client")).
  { intros c path.
    pose proof (folded_name_contains _ (home_finalPath_contains (c :: path))).
    split; [|assumption]. eapply contains_nonempty; [apply name_nonempty|eauto]. }
  assert (Hnone : forall actions : list Page.Action,
            (forall r, ~ In (Page.Send r) actions) ->
            (forall e, ~ In (Page.Bootstrap e) actions) ->
            (Home.selectedAccount st <> None /\
             electronAPI = true /\
             (exists c path, picked = Some (c :: path)) /\
             Settings.accepted save = true /\
             Home.is_processing (Home.launcherStatus st) = false -> False) ->
            (forall d,
               In (Page.Send (Page.PostGameDirectory d)) actions ->
               (exists c path, picked = Some (c :: path) /\
                               d = Home.finalPath (c :: path)) /\
               d <> [] /\
               Spec.ContainsIgnoringCase d (lit "Kristory Client")) /\
            (In (Page.Send Page.PostVerifyFiles) actions <->
             Home.selectedAccount st <> None /\
             electronAPI = true /\
             (exists c path, picked = Some (c :: path)) /\
             Settings.accepted save = true /\
             Home.is_processing (Home.launcherStatus st) = false) /\
            (Settings.accepted save = false ->
             st = st /\ forall e, ~ In (Page.Bootstrap e) actions)).
  { intros actions Hsend Hboot Hcond. split; [|split].
    - intros d H. now apply Hsend in H.
    - split; [intros H; now apply Hsend in H | intros H; now apply Hcond in H].
    - auto. }
  destruct (Home.selectedAccount st) as [account|].
  2:{ apply Hnone.
      - intros r [H|[]]. discriminate.
      - intros e [H|[]]. discriminate.
      - intros (H & _). congruence. }
  destruct electronAPI; cbn [negb].
  2:{ apply Hnone; [intros r [] | intros e [] |].
      intros (_ & H & _). discriminate. }
  destruct picked as [[|c path]|]; cbn [Home.postedDirectory].
  1,3: apply Hnone;
       [ intros r [H|[]]; discriminate
       | intros e [H|[]]; discriminate
       | intros (_ & _ & (? & ? & ?) & _); discriminate ].
  assert (Hfailed : forall notice,
            let actions :=
              [Page.Send (Page.PostGameDirectory (Home.finalPath (c :: path)));
               Page.Toast notice] in
            (forall d,
               In (Page.Send (Page.PostGameDirectory d)) actions ->
               (exists c' path', Some (c :: path) = Some (c' :: path') /\
                                 d = Home.finalPath (c' :: path')) /\
               d <> [] /\
               Spec.ContainsIgnoringCase d (lit "Kristory Client")) /\
            ~ In (Page.Send Page.PostVerifyFiles) actions /\
            (forall e, ~ In (Page.Bootstrap e) actions)).
  { intros notice actions. subst actions. split; [|split].
    - intros d [H|[H|[]]]; [injection H as <- | discriminate].
      split; [eauto | apply Hdir].
    - intros [H|[H|[]]]; discriminate.
    - intros e [H|[H|[]]]; discriminate. }
  destruct save as [|[] body]; cbn [Settings.accepted].
  - cbn [fst snd]. destruct (Hfailed
      {| Page.title := lit "Ошибка";
         Page.description := lit "Не удалось сохранить путь: " ++ thrown;
         Page.destructive := true |}) as (H1 & H2 & H3).
    split; [exact H1|]. split; [|auto].
    split; [intros H; now apply H2 in H|].
    intros (_ & _ & _ & H & _). discriminate.
  - destruct (Page.fetchBackendData_call answer java st) as [effects st'].
    cbn [fst snd]. split; [|split].
    + intros d [H|H].
      * injection H as <-. split; [eauto|apply Hdir].
      * apply in_app_iff in H as [H|H].
        -- now apply bootstrap_effects_send_nothing in H.
        -- apply startVerificationProcess_sends in H as [_ H]. discriminate.
    + split.
      * intros [H|H]; [discriminate|].
        apply in_app_iff in H as [H|H].
        -- now apply bootstrap_effects_send_nothing in H.
        -- apply startVerificationProcess_sends in H as [H _].
           repeat split; eauto; discriminate.
      * intros (_ & _ & _ & _ & H). right. apply in_app_iff. right.
        now apply startVerificationProcess_sends.
    + discriminate.
  - cbn [fst snd]. destruct (Hfailed
      {| Page.title := lit "Ошибка";
         Page.description :=
           lit "Не удалось сохранить путь: "
             ++ lit "Не удалось сохранить путь к папке";
         Page.destructive := true |}) as (H1 & H2 & H3).
    split; [exact H1|]. split; [|auto].
    split; [intros H; now apply H2 in H|].
    intros (_ & _ & _ & H & _). discriminate.
Qed.

(** ** What a bootstrap run that gave up shows *)

Lemma api_error_is_informational :
  Home.classify (lit "Ошибка API") = Home.Informational /\
  includes (lit "Ошибка API") (lit "Ошибка:") = false.
Proof. vm_compute. auto. Qed.

(** X5: after a bootstrap run with the default arguments whose attempts all
    fail, the status text "Ошибка API" raises no alert (it carries no error
    marker), and the status line does not show it as an error: while the
    launcher is not processing the line reads ready to launch or ready to
    install, and while it is processing the text is shown as progress. *)
Theorem giveUp_shows_no_error (backend : nat -> Response Home.ConfigJson)
    (java : Response jsstring) (st : Home.State) :
  (forall n, (n <= 5)%nat -> Home.receivedConfig (backend n) = None) ->
  let st' := (Home.fetchBackendData_default backend java st).2 in
  Home.statusTextEffect st' = ([], st') /\
  Page.statusLine (Home.launcherStatus st') =
    if Home.is_processing (Home.launcherStatus st) then
      Page.Progress (lit "Ошибка API") (Home.progress (Home.launcherStatus st))
    else if Home.is_game_installed (Home.launcherStatus st) then
      Page.ReadyToLaunch
    else Page.ReadyToInstall.
Proof.
  intros Hfail st'. subst st'. unfold Home.fetchBackendData_default.
  rewrite fetchBackendData_failure by (intros i Hi; now apply Hfail).
  cbn [snd]. destruct api_error_is_informational as [Hclass Hline]. split.
  - rewrite statusTextEffect_classify.
    cbn [Home.giveUp Home.launcherStatus Home.withStatusText Home.status_text].
    cbv zeta. now rewrite Hclass.
  - unfold Page.statusLine.
    cbn [Home.giveUp Home.launcherStatus Home.withStatusText Home.status_text
         Home.is_processing Home.is_game_installed Home.progress].
    now rewrite Hline.
Qed.

Lemma giveUp_shows_no_error_witness :
  Page.statusLine
    (Home.launcherStatus
       (Home.fetchBackendData_default (fun _ => Rejected) Rejected
          Home.initialState).2)
  = Page.ReadyToInstall.
Proof.
  exact (proj2 (giveUp_shows_no_error (fun _ => Rejected) Rejected
                  Home.initialState (fun _ _ => eq_refl))).
Defined.

(** ** The prefix of an error text *)

Lemma replace_unfold (s pat rep : jsstring) :
  replace s pat rep =
  if startsWith s pat then rep ++ drop (length pat) s
  else match s with
       | [] => []
       | c :: s' => c :: replace s' pat rep
       end.
Proof. destruct s; reflexivity. Qed.

Lemma replace_prefix (p r rep : jsstring) : replace (p ++ r) p rep = rep ++ r.
Proof.
  rewrite replace_unfold.
  replace (startsWith (p ++ r) p) with true
    by (symmetry; apply startsWith_spec; eauto).
  now rewrite drop_app_length.
Qed.

Lemma replace_absent (s p rep : jsstring) :
  includes s p = false -> replace s p rep = s.
Proof.
  induction s as [|c s IH]; rewrite replace_unfold; simpl;
    intros [H1 H2]%orb_false_iff; rewrite H1; [reflexivity|].
  now rewrite IH.
Qed.

Lemma error_prefix_parts :
  lit "Ошибка: " = lit "Ошибка:" ++ [32].
Proof. vm_compute. reflexivity. Qed.

(** X6: a status text made of the prefix "Ошибка: " and a message that does
    not mention Java raises one toast whose description is the message
    without the prefix, and the status line of an idle launcher shows the
    same message as an error; the description of the toast for a text that
    does not contain "Ошибка: " is the text as it is. *)
Theorem error_prefix_is_stripped (r : jsstring) (st : Home.State) :
  Home.mentionsJava (lit "Ошибка: " ++ r) = false ->
  let shown :=
    Home.setLauncherStatus
      (Home.withStatusText (lit "Ошибка: " ++ r) (Home.launcherStatus st)) st in
  Home.statusTextEffect shown
  = ([Home.Toast {| Home.title := lit "Произошла ошибка";
                    Home.description := r;
                    Home.destructive := true;
                    Home.duration := 8000 |}], shown) /\
  (Home.is_processing (Home.launcherStatus st) = false ->
   Page.statusLine (Home.launcherStatus shown) = Page.ErrorLine r) /\
  (forall t, includes t (lit "Ошибка: ") = false ->
     Home.description (Home.errorToast t) = t).
Proof.
  intros Hjava shown. subst shown.
  assert (Hstarts : startsWith (lit "Ошибка: " ++ r) (lit "Ошибка:") = true).
  { apply startsWith_spec. exists (32 :: r).
    now rewrite error_prefix_parts, <- app_assoc. }
  split; [|split].
  - unfold Home.statusTextEffect.
    cbn [Home.setLauncherStatus Home.launcherStatus Home.withStatusText
         Home.status_text]. cbv zeta.
    unfold Home.isRealError. rewrite Hstarts, Hjava. cbn [orb].
    unfold Home.errorToast. now rewrite (replace_prefix _ r []).
  - intros Hidle. unfold Page.statusLine.
    cbn [Home.setLauncherStatus Home.launcherStatus Home.withStatusText
         Home.status_text Home.is_processing]. rewrite Hidle.
    assert (Hinc : includes (lit "Ошибка: " ++ r) (lit "Ошибка:") = true).
    { apply includes_spec. exists [], (32 :: r).
      now rewrite error_prefix_parts, <- app_assoc. }
    now rewrite Hinc, (replace_prefix _ r []).
  - intros t Ht. unfold Home.errorToast. cbn [Home.description].
    now apply replace_absent.
Qed.

Lemma error_prefix_is_stripped_witness :
  Page.statusLine
    (Home.launcherStatus
       (Home.setLauncherStatus
          (Home.withStatusText (lit "Ошибка: " ++ lit "нет сети")
             (Home.launcherStatus Home.initialState))
          Home.initialState))
  = Page.ErrorLine (lit "нет сети").
Proof.
  refine (proj1 (proj2 (error_prefix_is_stripped (lit "нет сети")
                          Home.initialState _)) _).
  - vm_compute. reflexivity.
  - reflexivity.
Defined.

(** ** Selecting an account and refreshing *)

Lemma selectionAfterFetch_persisted (config : Home.LauncherConfig)
    (account : Home.Account) :
  In account (Home.config_accounts config) ->
  Home.last_selected_uuid config = Some (Home.uuid account) ->
  (forall a, In a (Home.config_accounts config) ->
     Home.uuid a = Home.uuid account -> a = account) ->
  Home.selectionAfterFetch config = Some account.
Proof.
  intros Hin Hlast Huniq. unfold Home.selectionAfterFetch.
  destruct (Home.config_accounts config) as [|first rest] eqn:E;
    [destruct Hin|].
  destruct (find (Home.isLastSelected config) (first :: rest)) as [a|] eqn:F;
    simpl.
  - apply find_some in F as [Ha F]. apply isLastSelected_spec in F.
    f_equal. apply Huniq; [exact Ha | congruence].
  - apply (find_none _ _ F) in Hin.
    assert (Home.isLastSelected config account = true)
      by now apply isLastSelected_spec.
    congruence.
Qed.

(** X7: [handleSelectAccount] selects the account whatever the backend
    answers to the save, sends the account's uuid, and changes nothing else
    of the state; and when a later bootstrap fetch receives a configuration
    that lists the account, names its uuid as the last selected one and has
    no other account with that uuid, the account is still the selected
    one. *)
Theorem selection_survives_refresh (save : Response unit)
    (account : Home.Account) (st : Home.State)
    (backend : nat -> Response Home.ConfigJson) (java : Response jsstring)
    (attempt retries n : nat) (delay : N) (config : Home.LauncherConfig) :
  (n <= retries)%nat ->
  (forall i, (i < n)%nat ->
     Home.receivedConfig (backend (attempt + i)%nat) = None) ->
  Home.receivedConfig (backend (attempt + n)%nat) = Some config ->
  In account (Home.config_accounts config) ->
  Home.last_selected_uuid config = Some (Home.uuid account) ->
  (forall a, In a (Home.config_accounts config) ->
     Home.uuid a = Home.uuid account -> a = account) ->
  let selected := Page.handleSelectAccount save account st in
  Home.selectedAccount selected.2 = Some account /\
  In (Page.Send (Page.PostLastSelectedUuid (Home.uuid account))) selected.1 /\
  Home.accounts selected.2 = Home.accounts st /\
  Home.launcherStatus selected.2 = Home.launcherStatus st /\
  Home.selectedAccount
    (Home.fetchBackendData backend java attempt retries delay selected.2).2
  = Some account.
Proof.
  intros Hn Hfail Hok Hin Hlast Huniq selected. subst selected.
  cbn [Page.handleSelectAccount fst snd]. repeat split.
  - now left.
  - rewrite (fetchBackendData_success backend java n attempt retries delay _
               config) by assumption.
    cbn [snd]. destruct java as [|[] []]; cbn [Home.checkJavaVersion snd];
      cbn [Home.handleJavaError Home.populate Home.selectedAccount];
      now apply selectionAfterFetch_persisted.
Qed.

Lemma selection_survives_refresh_witness :
  let alice := {| Home.uuid := lit "a1"; Home.username := lit "alice";
                  Home.type := Home.ely_by; Home.accessToken := [];
                  Home.clientToken := [] |} in
  let bob := {| Home.uuid := lit "b2"; Home.username := lit "bob";
                Home.type := Home.ely_by; Home.accessToken := [];
                Home.clientToken := [] |} in
  let config := {| Home.config_accounts := [alice; bob];
                   Home.last_selected_uuid := Some (lit "b2");
                   Home.game_settings :=
                     {| Home.server_address := []; Home.enable_logs := false;
                        Home.game_directory := [] |} |} in
  Home.selectedAccount
    (Home.fetchBackendData
       (fun _ => Answered true (Some (Home.JsonConfig config)))
       (Answered true None) 0 5 500
       (Page.handleSelectAccount Rejected bob Home.initialState).2).2
  = Some bob.
Proof.
  intros alice bob config.
  refine (proj2 (proj2 (proj2 (proj2
           (selection_survives_refresh Rejected bob Home.initialState
              (fun _ => Answered true (Some (Home.JsonConfig config)))
              (Answered true None) 0 5 0 500 config _ _ _ _ _ _))))).
  - lia.
  - intros i Hi. lia.
  - reflexivity.
  - right. now left.
  - reflexivity.
  - intros a [<-|[<-|[]]] H; [vm_compute in H; discriminate | reflexivity].
Defined.

(** ** The waiting time of the bootstrap fetch *)









(** ** Bounds and outcome of a save *)

Lemma confirmationLoop_effects (reads : nat -> Response (option jsstring))
    (written : jsstring) (remaining : nat) :
  forall i e,
  In e (Settings.confirmationLoop reads written i remaining).1 ->
  e = Settings.Fetch Settings.GetConfig \/ e = Settings.Sleep 200.
Proof.
  induction remaining as [|r IH]; intros i e; [intros []|].
  cbn [Settings.confirmationLoop].
  specialize (IH (S i) e).
  destruct (Settings.confirmationLoop reads written (S i) r) as [effects c].
  cbn [fst] in IH.
  destruct (reads i) as [|[] [echo|]]; try destruct (bool_decide _);
    cbn [fst]; simpl; intuition.
Qed.

Lemma confirmationLoop_bounds (reads : nat -> Response (option jsstring))
    (written : jsstring) (remaining : nat) :
  forall i,
  let effects := (Settings.confirmationLoop reads written i remaining).1 in
  (Spec.configReads effects <= remaining)%nat /\
  Observe.slept effects <= 200 * N.of_nat remaining /\
  (remaining <> 0%nat -> (1 <= Spec.configReads effects)%nat).
Proof.
  induction remaining as [|r IH]; intros i; [simpl; repeat split; lia|].
  cbn [Settings.confirmationLoop]. cbv zeta.
  specialize (IH (S i)). cbv zeta in IH.
  destruct (Settings.confirmationLoop reads written (S i) r) as [effects c].
  cbn [fst] in IH. destruct IH as (Hr & Hs & _).
  destruct (reads i) as [|[] [echo|]]; try destruct (bool_decide _);
    cbn [fst Spec.configReads Observe.slept]; repeat split; lia.
Qed.

Lemma slept_app (a b : list Settings.Effect) :
  Observe.slept (a ++ b) = Observe.slept a + Observe.slept b.
Proof.
  induction a as [|x a IH]; simpl; [reflexivity|].
  destruct x; simpl; rewrite IH; lia.
Qed.

Lemma slept_saved (key : Settings.SettingsKey) (data : Settings.SettingsData)
    (st : Settings.State) :
  Observe.slept (Settings.saved key data st) = 0.
Proof.
  unfold Settings.saved. simpl. now destruct (Settings.logsChanged key data st).
Qed.

Lemma postConfig_reads (data : Settings.SettingsData)
    (rest : list Settings.Effect) :
  Spec.configReads (Settings.Fetch (Settings.postConfig data) :: rest)
    = Spec.configReads rest /\
  Observe.slept (Settings.Fetch (Settings.postConfig data) :: rest)
    = Observe.slept rest.
Proof. now destruct data. Qed.

(** X10: whatever the backend answers, [handleSaveSettings] reads the
    configuration back at most 5 times and sleeps at most 1000 ms; it reads
    it back at all only after an accepted write of game settings with a
    non-empty game directory, and then at least once; a save of java
    settings is decided by the write alone. *)
Theorem save_is_bounded (write : Response unit)
    (reads : nat -> Response (option jsstring)) (key : Settings.SettingsKey)
    (data : Settings.SettingsData) (st : Settings.State) :
  let effects := Settings.handleSaveSettings write reads key data st in
  (Spec.configReads effects <= 5)%nat /\
  Observe.slept effects <= 1000 /\
  ((1 <= Spec.configReads effects)%nat <->
   Settings.accepted write = true /\ key = Settings.game_settings /\
   exists g, data = Settings.GameData g /\ Home.game_directory g <> []) /\
  (key = Settings.java_settings ->
   effects =
     if Settings.accepted write then
       [Settings.Fetch (Settings.postConfig data);
        Settings.Toast Settings.SettingsSaved; Settings.OnSettingsChange]
     else [Settings.Fetch (Settings.postConfig data);
           Settings.Toast Settings.SettingsNotSaved]).
Proof.
  intros effects. subst effects. unfold Settings.handleSaveSettings.
  assert (Hdir : forall w,
            Settings.directoryToConfirm key data = Some w <->
            key = Settings.game_settings /\
            exists g, data = Settings.GameData g /\ Home.game_directory g = w /\
                      w <> []).
  { intros w. unfold Settings.directoryToConfirm, Settings.data_game_directory.
    destruct key, data as [j|g]; try (split; [discriminate|]).
    - intros [H _]. discriminate.
    - intros [H _]. discriminate.
    - intros (_ & g & H & _). discriminate.
    - destruct (Home.game_directory g) as [|c d] eqn:E; split.
      + discriminate.
      + intros (_ & g' & [= <-] & H1 & H2). congruence.
      + intros [= <-]. split; [reflexivity|]. exists g. now rewrite E.
      + intros (_ & g' & [= <-] & H1 & H2). rewrite E in H1. now subst w. }
  destruct (Settings.accepted write).
  - destruct (Settings.directoryToConfirm key data) as [written|] eqn:E.
    + pose proof (confirmationLoop_bounds reads written 5 0) as (Hr & Hs & H1).
      cbv zeta in Hr, Hs, H1.
      destruct (Settings.confirmationLoop reads written 0 5) as [loop c].
      cbn [fst] in Hr, Hs, H1. specialize (H1 ltac:(lia)).
      destruct (proj1 (Hdir written) eq_refl) as (-> & g & -> & Hg & Hw).
      assert (Hreads : forall tail, Spec.configReads tail = 0%nat ->
                Observe.slept tail = 0 ->
                (Spec.configReads
                   (Settings.Fetch (Settings.PostConfigGame g) :: loop ++ tail)
                 = Spec.configReads loop) /\
                Observe.slept
                  (Settings.Fetch (Settings.PostConfigGame g) :: loop ++ tail)
                = Observe.slept loop).
      { intros tail Ht Hs'. cbn [Spec.configReads Observe.slept].
        rewrite configReads_app, slept_app, Ht, Hs'. split; lia. }
      assert (Hgoal : forall tail, Spec.configReads tail = 0%nat ->
                Observe.slept tail = 0 ->
                let effects :=
                  Settings.Fetch (Settings.PostConfigGame g) :: loop ++ tail in
                (Spec.configReads effects <= 5)%nat /\
                Observe.slept effects <= 1000 /\
                ((1 <= Spec.configReads effects)%nat <->
                 true = true /\ Settings.game_settings = Settings.game_settings /\
                 exists g', Settings.GameData g = Settings.GameData g' /\
                            Home.game_directory g' <> [])).
      { intros tail Ht Hs' effects. subst effects.
        destruct (Hreads tail Ht Hs') as [-> ->].
        repeat split; try lia. exists g. split; [reflexivity|congruence]. }
      cbn [Settings.postConfig].
      destruct c.
      * destruct (Hgoal (Settings.saved Settings.game_settings
                           (Settings.GameData g) st)
                    (configReads_saved _ _ _) (slept_saved _ _ _))
          as (H2 & H3 & H4).
        repeat split; try apply H4; auto; discriminate.
      * destruct (Hgoal [Settings.Toast Settings.SettingsNotSaved]
                    eq_refl eq_refl) as (H2 & H3 & H4).
        repeat split; try apply H4; auto; discriminate.
      * destruct (Hgoal [Settings.Toast Settings.SettingsNotSaved]
                    eq_refl eq_refl) as (H2 & H3 & H4).
        repeat split; try apply H4; auto; discriminate.
    + destruct (postConfig_reads data (Settings.saved key data st)) as [-> ->].
      rewrite configReads_saved, slept_saved. repeat split; try lia.
      * intros (_ & Hk & g & Hd & Hg).
        assert (None = Some (Home.game_directory g)) as Habs
          by (apply Hdir; eauto).
        discriminate.
      * intros ->. reflexivity.
  - destruct (postConfig_reads data [Settings.Toast Settings.SettingsNotSaved])
      as [-> ->].
    cbn [Spec.configReads Observe.slept]. repeat split; try lia;
      try (intros [H _]; discriminate).
Qed.

(** How a save ends, read off its effects. *)
Lemma handleSaveSettings_shape (write : Response unit)
    (reads : nat -> Response (option jsstring)) (key : Settings.SettingsKey)
    (data : Settings.SettingsData) (st : Settings.State) :
  exists loop tail,
    Settings.handleSaveSettings write reads key data st
    = Settings.Fetch (Settings.postConfig data) :: loop ++ tail /\
    (forall e, In e loop ->
       e = Settings.Fetch Settings.GetConfig \/ e = Settings.Sleep 200) /\
    (tail = Settings.saved key data st \/
     tail = [Settings.Toast Settings.SettingsNotSaved]) /\
    (Settings.accepted write = false ->
     loop = [] /\ tail = [Settings.Toast Settings.SettingsNotSaved]).
Proof.
  unfold Settings.handleSaveSettings. destruct (Settings.accepted write).
  - destruct (Settings.directoryToConfirm key data) as [written|].
    + pose proof (confirmationLoop_effects reads written 5 0) as Hloop.
      destruct (Settings.confirmationLoop reads written 0 5) as [loop c].
      cbn [fst] in Hloop.
      destruct c; eexists loop, _; (split; [reflexivity|]);
        (split; [exact Hloop|]); (split; [auto | discriminate]).
    + exists [], (Settings.saved key data st).
      split; [reflexivity|]. split; [intros e []|]. split; [auto|discriminate].
  - exists [], [Settings.Toast Settings.SettingsNotSaved].
    split; [reflexivity|]. split; [intros e []|]. auto.
Qed.

Lemma outcome_in_tail (p : Settings.Request) (loop tail : list Settings.Effect)
    (m : Settings.Effect) :
  (forall e, In e loop ->
     e = Settings.Fetch Settings.GetConfig \/ e = Settings.Sleep 200) ->
  (forall r, m <> Settings.Fetch r) -> (forall ms, m <> Settings.Sleep ms) ->
  In m (Settings.Fetch p :: loop ++ tail) <-> In m tail.
Proof.
  intros Hloop Hf Hs. split.
  - intros [H|H]; [symmetry in H; now apply Hf in H|].
    apply in_app_iff in H as [H|H]; [|exact H].
    apply Hloop in H as [H|H]; [now apply Hf in H | now apply Hs in H].
  - intros H. right. apply in_app_iff. now right.
Qed.

Lemma saved_outcome (key : Settings.SettingsKey) (data : Settings.SettingsData)
    (st : Settings.State) :
  let tail := Settings.saved key data st in
  In (Settings.Toast Settings.SettingsSaved) tail /\
  In Settings.OnSettingsChange tail /\
  ~ In (Settings.Toast Settings.SettingsNotSaved) tail /\
  (In (Settings.Toast Settings.RestartRequired) tail <->
   Settings.logsChanged key data st = true).
Proof.
  unfold Settings.saved. destruct (Settings.logsChanged key data st); simpl;
    intuition discriminate.
Qed.

Lemma save_effects_outcome (write : Response unit)
    (reads : nat -> Response (option jsstring)) (key : Settings.SettingsKey)
    (data : Settings.SettingsData) (st : Settings.State) :
  let effects := Settings.handleSaveSettings write reads key data st in
  (In (Settings.Toast Settings.SettingsSaved) effects <->
   In Settings.OnSettingsChange effects) /\
  (In (Settings.Toast Settings.SettingsSaved) effects <->
   ~ In (Settings.Toast Settings.SettingsNotSaved) effects) /\
  (In (Settings.Toast Settings.RestartRequired) effects <->
   In (Settings.Toast Settings.SettingsSaved) effects /\
   Settings.logsChanged key data st = true) /\
  (Settings.accepted write = false ->
   In (Settings.Toast Settings.SettingsNotSaved) effects).
Proof.
  intros effects. subst effects.
  destruct (handleSaveSettings_shape write reads key data st)
    as (loop & tail & -> & Hloop & Htail & Hwrite).
  rewrite !(outcome_in_tail _ loop tail) by (assumption || discriminate).
  destruct (saved_outcome key data st) as (H1 & H2 & H3 & H4).
  destruct Htail as [-> | ->].
  - cbv zeta in *. repeat split; try tauto.
    intros Hw. apply Hwrite in Hw as [_ Hw]. rewrite Hw in H3.
    exfalso. apply H3. now left.
  - simpl. repeat split; intuition discriminate.
Qed.

(** X11: every run of [handleSaveSettings] ends in exactly one of two ways:
    with the success toast and the call of [onSettingsChange], or with the
    failure toast and no such call; the restart advisory is shown exactly
    when the run ends in success and the key is [game_settings] with an
    [enable_logs] different from the one of the initial game settings; and
    a write that is not accepted ends in failure. *)
Theorem save_outcome (write : Response unit)
    (reads : nat -> Response (option jsstring)) (key : Settings.SettingsKey)
    (data : Settings.SettingsData) (st : Settings.State) :
  let effects := Settings.handleSaveSettings write reads key data st in
  (In (Settings.Toast Settings.SettingsSaved) effects <->
   In Settings.OnSettingsChange effects) /\
  (In (Settings.Toast Settings.SettingsSaved) effects <->
   ~ In (Settings.Toast Settings.SettingsNotSaved) effects) /\
  (In (Settings.Toast Settings.RestartRequired) effects <->
   In (Settings.Toast Settings.SettingsSaved) effects /\
   Settings.logsChanged key data st = true) /\
  (Settings.accepted write = false ->
   In (Settings.Toast Settings.SettingsNotSaved) effects).
Proof.
  intros effects. subst effects.
  destruct (handleSaveSettings_shape write reads key data st)
    as (loop & tail & -> & Hloop & Htail & Hwrite).
  rewrite !(outcome_in_tail _ loop tail) by (assumption || discriminate).
  destruct (saved_outcome key data st) as (H1 & H2 & H3 & H4).
  destruct Htail as [-> | ->].
  - cbv zeta in *. repeat split; try tauto.
    intros Hw. apply Hwrite in Hw as [_ Hw]. rewrite Hw in H3.
    exfalso. apply H3. now left.
  - simpl. repeat split; intuition discriminate.
Qed.

(** ** Loading the settings and the restart advisory *)

(** X12: after [fetchData] has loaded a configuration that carries game
    settings, the shown and the initial game settings are both the loaded
    ones; and when the logs switch is then set and the game settings are
    saved, the restart advisory is shown exactly when the save ends in
    success and the switch differs from the loaded [enable_logs]. *)
Theorem restart_advisory (ok1 ok2 ok3 : bool) (accs : list Home.Account)
    (ms : list Settings.Mod) (config : Dialog.ConfigBody)
    (g : Home.GameSettings) (checked : bool) (write : Response unit)
    (reads : nat -> Response (option jsstring)) (st : Dialog.State) :
  Dialog.game_settings config = Some g ->
  let loaded :=
    Dialog.settings
      (Dialog.fetchData (Answered ok1 (Some accs)) (Answered ok2 (Some ms))
         (Answered ok3 (Some config)) st).2 in
  let effects :=
    Dialog.saveGameSettings write reads (Dialog.onLogsSwitch checked loaded) in
  Settings.gameSettings loaded = g /\
  Settings.initialGameSettings loaded = g /\
  Settings.mods loaded = ms /\
  (In (Settings.Toast Settings.RestartRequired) effects <->
   In (Settings.Toast Settings.SettingsSaved) effects /\
   checked <> Home.enable_logs g).
Proof.
  intros Hg loaded effects. subst effects.
  assert (Hloaded : Settings.gameSettings loaded = g /\
                    Settings.initialGameSettings loaded = g /\
                    Settings.mods loaded = ms).
  { subst loaded. cbn [Dialog.fetchData snd Dialog.settings].
    unfold Dialog.applyConfig. rewrite Hg.
    destruct (Dialog.java_settings config); repeat split. }
  destruct Hloaded as (H1 & H2 & H3).
  split; [exact H1|]. split; [exact H2|]. split; [exact H3|].
  unfold Dialog.saveGameSettings.
  pose proof (save_effects_outcome write reads Settings.game_settings
                (Settings.GameData
                   (Settings.gameSettings (Dialog.onLogsSwitch checked loaded)))
                (Dialog.onLogsSwitch checked loaded)) as (_ & _ & Hr & _).
  cbv zeta in Hr. rewrite Hr.
  cbn [Dialog.onLogsSwitch Dialog.setGameSettings Settings.logsChanged
       Settings.gameSettings Settings.initialGameSettings Home.enable_logs].
  rewrite H2.
  destruct checked, (Home.enable_logs g); simpl; intuition congruence.
Qed.

Lemma restart_advisory_witness :
  let g := {| Home.server_address := []; Home.enable_logs := false;
              Home.game_directory := [] |} in
  let config := {| Dialog.java_settings := None;
                   Dialog.game_settings := Some g |} in
  Settings.gameSettings
    (Dialog.settings
       (Dialog.fetchData (Answered true (Some [])) (Answered true (Some []))
          (Answered true (Some config))
          {| Dialog.settings := Settings.initialState;
             Dialog.accounts := [] |}).2)
  = g.
Proof.
  intros g config.
  exact (proj1 (restart_advisory true true true [] [] config g true
                  (Answered true None) (fun _ => Rejected)
                  {| Dialog.settings := Settings.initialState;
                     Dialog.accounts := [] |} eq_refl)).
Defined.

(** ** Picking the game directory in the settings dialog *)

Lemma settings_finalPath_nonempty (c : N) (path : jsstring) :
  Settings.finalPath (c :: path) <> [].
Proof.
  rewrite settings_finalPath_cases.
  destruct (Settings.hasClientFolder (c :: path)); [discriminate|].
  intros H. apply app_eq_nil in H as [_ H]. apply app_eq_nil in H as [_ H].
  now apply name_nonempty.
Qed.

(** X13: for a non-empty answer of the picker, [handleSelectGameDirectory]
    shows the derived directory at once and keeps showing it however the
    save ends: the other fields of the game settings, the initial game
    settings, the mods and the java settings stay as they were, the save is
    the one of the game settings with the derived directory, which is not
    empty, so that an accepted write is always followed by at least one read
    of the configuration; when the write is not accepted or the five reads
    are answered without an echo, the save ends in failure and the shown
    directory is still the derived one.  Without the picker, or when the
    picker answers with nothing or an empty path, nothing happens. *)
Theorem select_game_directory (c : N) (path : jsstring) (write : Response unit)
    (reads : nat -> Response (option jsstring)) (st : Settings.State) :
  let finalPath := Settings.finalPath (c :: path) in
  let data := Dialog.withGameDirectory (Settings.gameSettings st) finalPath in
  let run :=
    Dialog.handleSelectGameDirectory true (Some (c :: path)) write reads st in
  finalPath <> [] /\
  run.1 = Settings.handleSaveSettings write reads Settings.game_settings
            (Settings.GameData data) st /\
  Settings.gameSettings run.2 = data /\
  Home.game_directory (Settings.gameSettings run.2) = finalPath /\
  Settings.initialGameSettings run.2 = Settings.initialGameSettings st /\
  Settings.mods run.2 = Settings.mods st /\
  Settings.javaSettings run.2 = Settings.javaSettings st /\
  (Settings.accepted write = true -> (1 <= Spec.configReads run.1 <= 5)%nat) /\
  (Settings.accepted write = false \/
   (forall i, (i < 5)%nat ->
      Spec.answersWithoutEcho finalPath (reads i) = true) ->
   In (Settings.Toast Settings.SettingsNotSaved) run.1 /\
   ~ In Settings.OnSettingsChange run.1) /\
  (forall picked,
     Dialog.handleSelectGameDirectory false picked write reads st = ([], st)) /\
  Dialog.handleSelectGameDirectory true None write reads st = ([], st) /\
  Dialog.handleSelectGameDirectory true (Some []) write reads st = ([], st).
Proof.
  intros finalPath data run.
  assert (Hne : finalPath <> []) by apply settings_finalPath_nonempty.
  assert (Hconfirm :
    Settings.directoryToConfirm Settings.game_settings (Settings.GameData data)
    = Some finalPath).
  { unfold Settings.directoryToConfirm. cbn.
    fold finalPath. now destruct finalPath. }
  subst run. cbn [Dialog.handleSelectGameDirectory Settings.selectedDirectory].
  fold finalPath. fold data. cbn [fst snd].
  split; [exact Hne|]. do 6 (split; [reflexivity|]).
  split; [|split; [|repeat split]].
  - intros Hw. unfold Settings.handleSaveSettings. rewrite Hw, Hconfirm.
    pose proof (confirmationLoop_bounds reads finalPath 5 0) as (Hr & _ & H1).
    cbv zeta in Hr, H1.
    destruct (Settings.confirmationLoop reads finalPath 0 5) as [loop k].
    cbn [fst] in Hr, H1. specialize (H1 ltac:(lia)).
    assert (Hcount : forall tail, Spec.configReads tail = 0%nat ->
              Spec.configReads
                (Settings.Fetch (Settings.postConfig (Settings.GameData data))
                   :: loop ++ tail) = Spec.configReads loop).
    { intros tail Ht. cbn [Settings.postConfig Spec.configReads].
      rewrite configReads_app, Ht. lia. }
    destruct k; rewrite Hcount; try reflexivity; try lia.
    apply configReads_saved.
  - intros [Hw | Hno].
    + pose proof (save_effects_outcome write reads Settings.game_settings
                    (Settings.GameData data) st) as (H1 & H2 & _ & H4).
      cbv zeta in H1, H2, H4. specialize (H4 Hw). split; [exact H4|].
      intros H. apply H1 in H. now apply H2 in H.
    + pose proof (save_effects_outcome write reads Settings.game_settings
                    (Settings.GameData data) st) as (H1 & H2 & _ & H4).
      cbv zeta in H1, H2, H4.
      destruct (Settings.accepted write) eqn:Hw.
      * assert (Hin : In (Settings.Toast Settings.SettingsNotSaved)
                        (Settings.handleSaveSettings write reads
                           Settings.game_settings (Settings.GameData data) st)).
        { unfold Settings.handleSaveSettings. rewrite Hw, Hconfirm.
          rewrite (confirmationLoop_waiting reads finalPath 5 0) by exact Hno.
          right. apply in_app_iff. right. now left. }
        split; [exact Hin|]. intros H. apply H1 in H. now apply H2 in H.
      * specialize (H4 eq_refl). split; [exact H4|].
        intros H. apply H1 in H. now apply H2 in H.
Qed.

(** ** How toggles of mods compose *)

Lemma withStatus_filename (m : Settings.Mod) (e : bool) :
  Settings.filename (Settings.withStatus m e) = Settings.filename m.
Proof. reflexivity. Qed.

(** X14: on the list [handleToggleMod] sets at once, a second toggle of the
    same filename overrides the first (the last one wins), toggles of
    different filenames can be done in either order, toggling a filename no
    mod of the list has leaves the list as it is, and so does setting the
    status the mods with that filename already have. *)
Theorem toggles_compose (mods : list Settings.Mod) (f g : jsstring)
    (e1 e2 : bool) :
  Settings.optimisticMods (Settings.optimisticMods mods f e1) f e2
    = Settings.optimisticMods mods f e2 /\
  (f <> g ->
   Settings.optimisticMods (Settings.optimisticMods mods f e1) g e2
   = Settings.optimisticMods (Settings.optimisticMods mods g e2) f e1) /\
  (Forall (fun m => Settings.filename m <> f) mods ->
   Settings.optimisticMods mods f e1 = mods) /\
  (Forall (fun m => Settings.filename m = f ->
                    Settings.status m
                    = if e1 then Settings.enabled else Settings.disabled) mods ->
   Settings.optimisticMods mods f e1 = mods).
Proof.
  unfold Settings.optimisticMods, str_eqb. repeat split.
  - induction mods as [|m mods IH]; [reflexivity|]. cbn [fmap list_fmap].
    f_equal; [|exact IH].
    destruct (bool_decide (Settings.filename m = f)) eqn:E.
    + rewrite withStatus_filename, E. reflexivity.
    + now rewrite E.
  - intros Hfg. induction mods as [|m mods IH]; [reflexivity|].
    cbn [fmap list_fmap]. f_equal; [|exact IH].
    destruct (bool_decide (Settings.filename m = f)) eqn:E1;
      destruct (bool_decide (Settings.filename m = g)) eqn:E2;
      rewrite ?withStatus_filename, ?E1, ?E2; try reflexivity.
    apply bool_decide_eq_true in E1, E2. congruence.
  - induction 1 as [|m mods Hm _ IH]; [reflexivity|]. cbn [fmap list_fmap].
    f_equal; [|exact IH]. now rewrite bool_decide_eq_false_2.
  - induction 1 as [|m mods Hm _ IH]; [reflexivity|]. cbn [fmap list_fmap].
    f_equal; [|exact IH]. case_bool_decide; [|reflexivity].
    specialize (Hm H). destruct m; simpl in *. unfold Settings.withStatus.
    simpl. now rewrite Hm.
Qed.

(** ** Loading the data of the settings dialog *)

(** X17: [fetchData] does not look at the status of the answers: with the
    same bodies it ends the same whatever the statuses.  When one of the
    three requests is rejected it changes nothing and shows the failure
    toast.  When a body is not JSON it shows the failure toast after the
    updates that precede the body: none for the accounts, the accounts for
    the mods, the accounts and the mods for the configuration.  A
    configuration without game settings leaves the shown and the initial
    game settings as they were. *)
Theorem fetchData_partial (st : Dialog.State) :
  let failed :=
    [Dialog.GetAccounts; Dialog.GetMods; Dialog.GetConfig;
     Dialog.ConsoleError; Dialog.LoadFailedToast] in
  (forall ok1 ok2 ok3 a m c,
     Dialog.fetchData (Answered ok1 a) (Answered ok2 m) (Answered ok3 c) st
     = Dialog.fetchData (Answered true a) (Answered true m) (Answered true c)
         st) /\
  (forall accRes modsRes configRes,
     accRes = Rejected \/ modsRes = Rejected \/ configRes = Rejected ->
     Dialog.fetchData accRes modsRes configRes st = (failed, st)) /\
  (forall ok1 ok2 ok3 m c,
     Dialog.fetchData (Answered ok1 None) (Answered ok2 m) (Answered ok3 c) st
     = (failed, st)) /\
  (forall ok1 ok2 ok3 accs c,
     Dialog.fetchData (Answered ok1 (Some accs)) (Answered ok2 None)
       (Answered ok3 c) st
     = (failed, {| Dialog.settings := Dialog.settings st;
                   Dialog.accounts := accs |})) /\
  (forall ok1 ok2 ok3 accs ms,
     Dialog.fetchData (Answered ok1 (Some accs)) (Answered ok2 (Some ms))
       (Answered ok3 None) st
     = (failed, {| Dialog.settings :=
                     Settings.setMods ms (Dialog.settings st);
                   Dialog.accounts := accs |})) /\
  (forall ok1 ok2 ok3 accs ms config,
     Dialog.game_settings config = None ->
     let loaded :=
       Dialog.settings
         (Dialog.fetchData (Answered ok1 (Some accs)) (Answered ok2 (Some ms))
            (Answered ok3 (Some config)) st).2 in
     Settings.gameSettings loaded = Settings.gameSettings (Dialog.settings st) /\
     Settings.initialGameSettings loaded
     = Settings.initialGameSettings (Dialog.settings st)).
Proof.
  intros failed. subst failed. repeat split.
  - intros accRes modsRes configRes [-> | [-> | ->]]; [reflexivity| |].
    + now destruct accRes.
    + now destruct accRes, modsRes.
  - cbn [Dialog.fetchData snd Dialog.settings]. unfold Dialog.applyConfig.
    rewrite H. now destruct (Dialog.java_settings config).
  - cbn [Dialog.fetchData snd Dialog.settings]. unfold Dialog.applyConfig.
    rewrite H. now destruct (Dialog.java_settings config).
Qed.

(** ** Adding an account *)

(** X15: [handleAddAccount] sends a request exactly when no request is
    under way and both the address and the password are non-empty, and the
    request carries the two as they are in the state; otherwise it does
    nothing at all. *)
Theorem add_account_guard (thrown : jsstring)
    (response : Response AddAccount.AuthBody) (st : AddAccount.State) :
  let run := AddAccount.handleAddAccount thrown response st in
  (forall e p,
     In (AddAccount.PostAuth e p) run.1 <->
     AddAccount.isLoading st = false /\ AddAccount.email st <> [] /\
     AddAccount.password st <> [] /\
     e = AddAccount.email st /\ p = AddAccount.password st) /\
  (AddAccount.isLoading st = true \/ AddAccount.email st = [] \/
   AddAccount.password st = [] ->
   run = ([], st)).
Proof.
  intros run. subst run. unfold AddAccount.handleAddAccount.
  generalize (lit "Не удалось добавить аккаунт"). intros dflt.
  destruct (AddAccount.isLoading st), (AddAccount.email st) as [|c e'],
    (AddAccount.password st) as [|c' p']; cbn [orb AddAccount.isEmpty];
    (split; [intros e p; split;
             [try (intros []) | try (intros (? & ? & ? & _); congruence)]
            | try reflexivity]).
  - destruct response as [|[] [data|]]; cbn [fst];
      (intros [H|H]; [injection H as <- <-; repeat split; discriminate|]);
      simpl in H; repeat (destruct H as [H|H]; [discriminate|]); destruct H.
  - intros (_ & _ & _ & -> & ->).
    destruct response as [|[] [data|]]; now left.
  - intros [H | [H | H]]; discriminate.
Qed.

(** X16: a run of [handleAddAccount] that sends the request ends with
    [isLoading] false.  It ends in success exactly when the answer is 2xx
    and its body is JSON: then the caller is told that an account was
    added, the dialog is closed and the address and the password are
    cleared.  In every other case (a rejected request, a body that is not
    JSON whatever the status, a status that is not 2xx) the caller is not
    told, the dialog is not closed, the address and the password are kept
    and one error toast is shown, with the backend's [error] when the body
    carries a non-empty one. *)
Theorem add_account_outcome (thrown : jsstring)
    (response : Response AddAccount.AuthBody) (st : AddAccount.State) :
  AddAccount.isLoading st = false ->
  AddAccount.email st <> [] ->
  AddAccount.password st <> [] ->
  let run := AddAccount.handleAddAccount thrown response st in
  AddAccount.isLoading run.2 = false /\
  ((exists data, response = Answered true (Some data)) ->
   In AddAccount.OnAccountAdded run.1 /\
   In (AddAccount.OnOpenChange false) run.1 /\
   AddAccount.email run.2 = [] /\ AddAccount.password run.2 = [] /\
   forall d, ~ In (AddAccount.ErrorToast d) run.1) /\
  (~ (exists data, response = Answered true (Some data)) ->
   ~ In AddAccount.OnAccountAdded run.1 /\
   (forall o, ~ In (AddAccount.OnOpenChange o) run.1) /\
   AddAccount.email run.2 = AddAccount.email st /\
   AddAccount.password run.2 = AddAccount.password st /\
   exists d, run.1 = [AddAccount.PostAuth (AddAccount.email st)
                        (AddAccount.password st);
                      AddAccount.ConsoleError; AddAccount.ErrorToast d]) /\
  (forall c e u,
     response = Answered false
                  (Some {| AddAccount.error := Some (c :: e);
                           AddAccount.username := u |}) ->
     In (AddAccount.ErrorToast (c :: e)) run.1).
Proof.
  intros Hl He Hp run. subst run. unfold AddAccount.handleAddAccount.
  generalize (lit "Не удалось добавить аккаунт"). intros dflt.
  rewrite Hl.
  destruct (AddAccount.email st) as [|c0 e0] eqn:Ee; [congruence|].
  destruct (AddAccount.password st) as [|c1 p1] eqn:Ep; [congruence|].
  cbn [orb AddAccount.isEmpty].
  assert (Hfail : forall d,
    let run :=
      ([AddAccount.PostAuth (c0 :: e0) (c1 :: p1); AddAccount.ConsoleError;
        AddAccount.ErrorToast d],
       AddAccount.setIsLoading false (AddAccount.setIsLoading true st)) in
    AddAccount.isLoading run.2 = false /\
    ~ In AddAccount.OnAccountAdded run.1 /\
    (forall o, ~ In (AddAccount.OnOpenChange o) run.1) /\
    AddAccount.email run.2 = c0 :: e0 /\
    AddAccount.password run.2 = c1 :: p1 /\
    In (AddAccount.ErrorToast d) run.1).
  { intros d. cbn. rewrite Ee, Ep. repeat split; try tauto.
    - intros [H|[H|[H|[]]]]; discriminate.
    - intros o [H|[H|[H|[]]]]; discriminate. }
  destruct response as [|[] [data|]].
  - destruct (Hfail thrown) as (H1 & H2 & H3 & H4 & H5 & H6).
    split; [exact H1|]. split; [intros [? ?]; discriminate|].
    split; [intros _; repeat split; eauto | discriminate].
  - cbn [fst snd]. split; [reflexivity|]. split.
    + intros _. repeat split; simpl; auto.
      intros d [H|[H|[H|[H|[]]]]]; discriminate.
    + split; [intros H; exfalso; apply H; eauto | discriminate].
  - destruct (Hfail thrown) as (H1 & H2 & H3 & H4 & H5 & H6).
    split; [exact H1|]. split; [intros [? ?]; discriminate|].
    split; [intros _; repeat split; eauto | discriminate].
  - destruct (Hfail (Page.orElse (AddAccount.error data) dflt))
      as (H1 & H2 & H3 & H4 & H5 & H6).
    split; [exact H1|]. split; [intros [? ?]; discriminate|].
    split; [intros _; repeat split; eauto|].
    intros c e u [= ->]. exact H6.
  - destruct (Hfail thrown) as (H1 & H2 & H3 & H4 & H5 & H6).
    split; [exact H1|]. split; [intros [? ?]; discriminate|].
    split; [intros _; repeat split; eauto | discriminate].
Qed.

Lemma add_account_outcome_witness :
  let st := {| AddAccount.email := lit "user@example.com";
               AddAccount.password := lit "secret";
               AddAccount.isLoading := false |} in
  AddAccount.isLoading
    (AddAccount.handleAddAccount (lit "Failed to fetch") (Answered true None)
       st).2
  = false.
Proof.
  intros st.
  refine (proj1 (add_account_outcome (lit "Failed to fetch")
                   (Answered true None) st _ _ _)).
  - reflexivity.
  - vm_compute. discriminate.
  - vm_compute. discriminate.
Defined.
